(** * Food-delivery graph database demo (app.py): model registry, query
    showcase and page rendering, embedded in Rocq.

    The application is a single Streamlit script.  Its pages are modelled as
    functions from the widget state to the list of elements the script emits,
    or to the Python exception that stops the script.  Dictionaries are
    [gmap]s, lists are lists, Python [int] is [Z]. *)

From Stdlib Require Import ZArith String Ascii List Lia.
From Stdlib Require Import DecimalString DecimalNat DecimalZ.
From stdpp Require Import base decidable option list strings gmap fin_maps.

Import ListNotations.
Local Open Scope string_scope.
Local Open Scope Z_scope.

(** ** Python values used by the script *)

Definition dq : string := String (ascii_of_nat 34) EmptyString.
Definition nl : string := String (ascii_of_nat 10) EmptyString.

(** Python exceptions, by class name and argument. *)
Record exn := Exn { exn_class : string; exn_arg : string }.

Definition KeyError (k : string) : exn := Exn "KeyError" k.
Definition IndexError : exn := Exn "IndexError" "list index out of range".
Definition ValueError (s : string) : exn := Exn "ValueError" s.

(** A computation of the script: a value, or the exception that aborts it. *)
Inductive result (A : Type) : Type :=
| Ok (a : A)
| Raise (e : exn).
Arguments Ok {A} a.
Arguments Raise {A} e.

#[global] Instance result_ret : MRet result := fun A a => Ok a.
#[global] Instance result_bind : MBind result := fun A B k r =>
  match r with
  | Ok a => k a
  | Raise e => Raise e
  end.

(** ** Model registry: [graph_model] *)

Record NodeType := mkNode {
  node_type : string;
  node_properties : list string;
  node_color : string;
  node_icon : string
}.

Record EdgeType := mkEdge {
  edge_from : string;
  edge_to : string;
  edge_relationship : string;
  edge_properties : list string
}.

Record GraphModel := mkModel {
  nodes : list NodeType;
  edges : list EdgeType
}.

Definition graph_model : GraphModel :=
  {| nodes :=
       [ mkNode "Customer"
           ["customer_id"; "name"; "phone"; "address"; "join_date"]
           "#60a5fa" "👤";
         mkNode "Restaurant"
           ["restaurant_id"; "name"; "cuisine_type"; "rating"; "location"]
           "#f472b6" "🏪";
         mkNode "Dish"
           ["dish_id"; "name"; "price"; "category"; "is_vegetarian"]
           "#fbbf24" "🍽️";
         mkNode "DeliveryPerson"
           ["person_id"; "name"; "phone"; "vehicle_type"; "rating"]
           "#34d399" "🏍️";
         mkNode "Order"
           ["order_id"; "order_date"; "total_amount"; "status"; "delivery_time"]
           "#a78bfa" "📦" ];
     edges :=
       [ mkEdge "Customer" "Order" "PLACES" ["timestamp"];
         mkEdge "Order" "Restaurant" "FROM" ["order_date"];
         mkEdge "Order" "Dish" "CONTAINS" ["quantity"; "price"];
         mkEdge "DeliveryPerson" "Order" "DELIVERS" ["pickup_time"; "delivery_time"];
         mkEdge "Restaurant" "Dish" "SERVES" ["availability"];
         mkEdge "Customer" "Restaurant" "REVIEWS" ["rating"; "comment"; "date"] ] |}.

(** ** Python builtins used by the script *)

(** [str(n)] for an [int] of at most 4300 digits. *)
Definition str_int (z : Z) : string := NilZero.string_of_int (Z.to_int z).

(** [sep.join(parts)]. *)
Fixpoint join (sep : string) (parts : list string) : string :=
  match parts with
  | [] => ""
  | [p] => p
  | p :: rest => p ++ sep ++ join sep rest
  end.

(** [s.split(sep)] for a one-character separator: never empty, the first
    element is the text before the first separator. *)
Fixpoint split (sep : ascii) (s : string) : list string :=
  match s with
  | EmptyString => [""]
  | String c r =>
      if Ascii.eqb c sep then "" :: split sep r
      else match split sep r with
           | h :: t => String c h :: t
           | [] => [String c ""]
           end
  end.

(** [l[i]] on a Python list: negative indices count from the end, anything
    outside [-len, len) raises IndexError. *)
Definition getitem {A} (l : list A) (i : Z) : result A :=
  let n := Z.of_nat (length l) in
  let j := if i <? 0 then n + i else i in
  if (j <? 0) || (n <=? j) then Raise IndexError
  else match l !! Z.to_nat j with
       | Some a => Ok a
       | None => Raise IndexError
       end.

(** [int(s)] in base 10: surrounding whitespace (tab to carriage return,
    and the space) is stripped, one sign is allowed, digits may be separated
    by single underscores.  The text is taken as ASCII, and as one of at most
    4300 digits: on a longer one [int] and [str] raise ValueError, which the
    script cannot reach through its own option texts. *)
Definition is_space (c : ascii) : bool :=
  let n := nat_of_ascii c in
  ((9 <=? n) && (n <=? 13))%nat || (n =? 32)%nat.

Fixpoint lstrip (s : string) : string :=
  match s with
  | String c r => if is_space c then lstrip r else s
  | EmptyString => EmptyString
  end.

Fixpoint rstrip (s : string) : string :=
  match s with
  | EmptyString => EmptyString
  | String c r =>
      match rstrip r with
      | EmptyString => if is_space c then EmptyString else String c EmptyString
      | r' => String c r'
      end
  end.

Definition strip (s : string) : string := rstrip (lstrip s).

Definition digit_of (c : ascii) : option Z :=
  let n := nat_of_ascii c in
  if ((48 <=? n) && (n <=? 57))%nat then Some (Z.of_nat (n - 48)) else None.

(** [after_digit] tells whether the previous character was a digit, the only
    place where an underscore or the end of the literal is accepted. *)
Fixpoint int_digits (s : string) (acc : Z) (after_digit : bool) : option Z :=
  match s with
  | EmptyString => if after_digit then Some acc else None
  | String c r =>
      match digit_of c with
      | Some d => int_digits r (10 * acc + d) true
      | None =>
          if Ascii.eqb c "_" && after_digit then int_digits r acc false
          else None
      end
  end.

Definition int_of_str (s : string) : result Z :=
  let bad := Raise (ValueError ("invalid literal for int() with base 10: '" ++ s ++ "'")) in
  let digits t k :=
    match int_digits t 0 false with Some n => Ok (k n) | None => bad end in
  match strip s with
  | String c r =>
      if Ascii.eqb c "-" then digits r Z.opp
      else if Ascii.eqb c "+" then digits r id
      else digits (String c r) id
  | EmptyString => bad
  end.

(** ** Query showcase: [queries] *)

(** A float cell, kept as the decimal literal [whole.fraction] it is written
    as in the script.  [repr] of the double nearest to a literal with few
    digits, without a trailing zero, is that literal again. *)
Record float_literal := mkFloat { whole : Z; fraction : Decimal.uint }.

(** Cell values of the result tables. *)
Inductive scalar :=
| SStr (s : string)
| SInt (z : Z)
| SFloat (f : float_literal).

(** A column with the dtype pandas gives to its list of values: text
    (object), int64 or float64.  A list that mixes ints and floats becomes a
    float64 column when the frame is built. *)
Inductive column :=
| StrColumn (values : list string)
| IntColumn (values : list Z)
| FloatColumn (values : list float_literal).

(** [pd.DataFrame({name: values, ...})]: the columns in insertion order.
    pandas refuses lists of different lengths; see [rectangular]. *)
Record DataFrame := mkDataFrame { columns : list (string * column) }.

Record QueryExample := mkQuery {
  q_title : string;
  q_description : string;
  q_query : string;
  q_result : DataFrame
}.

Definition queries : list QueryExample :=
  [ mkQuery "Find all orders by a customer"
      ("Retrieve all orders placed by customer " ++ dq ++ "Alice" ++ dq)
      ("MATCH (c:Customer {name: 'Alice'})-[:PLACES]->(o:Order)" ++ nl ++
       "RETURN c.name, o.order_id, o.total_amount, o.status")
      (mkDataFrame
         [ ("customer", StrColumn ["Alice"; "Alice"]);
           ("order_id", StrColumn ["ORD001"; "ORD005"]);
           ("amount", IntColumn [450; 320]);
           ("status", StrColumn ["delivered"; "in_transit"]) ]);
    mkQuery "Find dishes from a restaurant"
      ("Get all dishes served by " ++ dq ++ "Spice Garden" ++ dq)
      ("MATCH (r:Restaurant {name: 'Spice Garden'})-[:SERVES]->(d:Dish)" ++ nl ++
       "RETURN r.name, d.name, d.price, d.category")
      (mkDataFrame
         [ ("restaurant", StrColumn ["Spice Garden"; "Spice Garden"]);
           ("dish", StrColumn ["Butter Chicken"; "Paneer Tikka"]);
           ("price", IntColumn [280; 220]);
           ("category", StrColumn ["Main Course"; "Appetizer"]) ]);
    mkQuery "Track order delivery chain"
      "Complete delivery chain for an order"
      ("MATCH (c:Customer)-[:PLACES]->(o:Order)-[:FROM]->(r:Restaurant)," ++ nl ++
       "      (o)-[:CONTAINS]->(d:Dish)," ++ nl ++
       "      (dp:DeliveryPerson)-[:DELIVERS]->(o)" ++ nl ++
       "WHERE o.order_id = 'ORD001'" ++ nl ++
       "RETURN c.name, r.name, d.name, dp.name, o.status")
      (mkDataFrame
         [ ("customer", StrColumn ["Alice"]);
           ("restaurant", StrColumn ["Spice Garden"]);
           ("dish", StrColumn ["Butter Chicken"]);
           ("delivery_person", StrColumn ["Raj"]);
           ("status", StrColumn ["delivered"]) ]);
    mkQuery "Find highly rated restaurants"
      "Restaurants with average rating > 4.5"
      ("MATCH (c:Customer)-[r:REVIEWS]->(rest:Restaurant)" ++ nl ++
       "WHERE r.rating >= 4.5" ++ nl ++
       "RETURN rest.name, rest.cuisine_type, AVG(r.rating) as avg_rating" ++ nl ++
       "ORDER BY avg_rating DESC")
      (mkDataFrame
         [ ("restaurant", StrColumn ["Spice Garden"; "Pizza Paradise"]);
           ("cuisine", StrColumn ["Indian"; "Italian"]);
           ("avg_rating", FloatColumn [mkFloat 4 (Decimal.D7 Decimal.Nil); mkFloat 4 (Decimal.D6 Decimal.Nil)]) ]);
    mkQuery "Delivery person performance"
      "Find all orders delivered by a specific person"
      ("MATCH (dp:DeliveryPerson {name: 'Raj'})-[del:DELIVERS]->(o:Order)" ++ nl ++
       "RETURN dp.name, COUNT(o) as total_deliveries, " ++ nl ++
       "       AVG(del.delivery_time) as avg_delivery_time")
      (mkDataFrame
         [ ("delivery_person", StrColumn ["Raj"]);
           ("total_deliveries", IntColumn [15]);
           ("avg_delivery_time", StrColumn ["28 mins"]) ]);
    mkQuery "Customer preferences"
      "Find most ordered dish categories by customer"
      ("MATCH (c:Customer {name: 'Alice'})-[:PLACES]->(o:Order)-[:CONTAINS]->(d:Dish)" ++ nl ++
       "RETURN d.category, COUNT(d) as order_count" ++ nl ++
       "ORDER BY order_count DESC")
      (mkDataFrame
         [ ("category", StrColumn ["Main Course"; "Dessert"; "Appetizer"]);
           ("count", IntColumn [8; 5; 3]) ]) ].

(** ** [DataFrame.to_csv(index=False)] *)

(** Text of one cell: strings as they are, ints by [str], floats by [repr]. *)
Definition str_float (f : float_literal) : string :=
  str_int (whole f) ++ "." ++ NilZero.string_of_uint (fraction f).

Definition str_scalar (v : scalar) : string :=
  match v with
  | SStr s => s
  | SInt z => str_int z
  | SFloat f => str_float f
  end.

(** Minimal quoting of the csv writer, whose line terminator is the line
    feed: a field holding the delimiter, the quote character or a line feed
    is wrapped in quotes, its quotes doubled.  A carriage return alone does
    not make a field quoted. *)
Definition is_comma (c : ascii) : bool := (nat_of_ascii c =? 44)%nat.
Definition is_quote (c : ascii) : bool := (nat_of_ascii c =? 34)%nat.
Definition is_line_feed (c : ascii) : bool := (nat_of_ascii c =? 10)%nat.

Definition needs_quote_char (c : ascii) : bool :=
  is_comma c || is_quote c || is_line_feed c.

Fixpoint needs_quote (s : string) : bool :=
  match s with
  | EmptyString => false
  | String c r => needs_quote_char c || needs_quote r
  end.

Fixpoint double_quotes (s : string) : string :=
  match s with
  | EmptyString => EmptyString
  | String c r =>
      if is_quote c then dq ++ dq ++ double_quotes r
      else String c (double_quotes r)
  end.

Definition quote_field (s : string) : string :=
  if needs_quote s then dq ++ double_quotes s ++ dq else s.

(** A row made of one empty field is written quoted, so that the line is
    not blank. *)
Definition csv_line (fields : list string) : string :=
  match fields with
  | [EmptyString] => dq ++ dq ++ nl
  | _ => join "," (map quote_field fields) ++ nl
  end.

Definition column_names (df : DataFrame) : list string := map fst (columns df).

Definition column_cells (c : column) : list scalar :=
  match c with
  | StrColumn values => map SStr values
  | IntColumn values => map SInt values
  | FloatColumn values => map SFloat values
  end.

Definition nrows (df : DataFrame) : nat :=
  match columns df with
  | [] => 0%nat
  | (_, c) :: _ => length (column_cells c)
  end.

(** Row [i]: the [i]-th value of every column. *)
Definition row (df : DataFrame) (i : nat) : list scalar :=
  omap (fun col => column_cells (snd col) !! i) (columns df).

Definition rows (df : DataFrame) : list (list scalar) :=
  map (row df) (seq 0 (nrows df)).

(** The header line, then one line per row. *)
Definition to_csv (df : DataFrame) : string :=
  foldr String.append ""
    (map csv_line (column_names df :: map (map str_scalar) (rows df))).

(** The lines of a text, split at line feeds. *)
Definition text_lines (s : string) : list string := split (ascii_of_nat 10) s.

(** ** Reading the export back

    The script only writes the export.  [read_csv] is the reader of the same
    dialect (comma delimiter, double-quote quoting with doubled quotes, line
    breaks between records, blank lines skipped); it is what the round trip
    of the export is measured against. *)

(** The reader ends a record at a line feed or a carriage return. *)
Definition is_carriage_return (c : ascii) : bool := (nat_of_ascii c =? 13)%nat.

Definition is_break (c : ascii) : bool := is_line_feed c || is_carriage_return c.

Inductive reader_state :=
| StartRecord
| StartField
| InField
| InQuoted
| QuoteInQuoted.

Definition snoc_char (s : string) (c : ascii) : string := s ++ String c EmptyString.

(** [fld] is the field being read, [rec] the fields of the current record,
    [acc] the finished records.  An unterminated quoted field is an error. *)
Fixpoint read_records (st : reader_state) (fld : string) (rec : list string)
    (acc : list (list string)) (s : string) : option (list (list string)) :=
  match s with
  | EmptyString =>
      match st with
      | StartRecord => Some acc
      | InQuoted => None
      | _ => Some (acc ++ [rec ++ [fld]])%list
      end
  | String c r =>
      match st with
      | StartRecord =>
          if is_break c then read_records StartRecord "" [] acc r
          else if is_quote c then read_records InQuoted "" [] acc r
          else if is_comma c then read_records StartField "" [""] acc r
          else read_records InField (String c "") [] acc r
      | StartField =>
          if is_break c then read_records StartRecord "" [] (acc ++ [rec ++ [""]])%list r
          else if is_quote c then read_records InQuoted "" rec acc r
          else if is_comma c then read_records StartField "" (rec ++ [""])%list acc r
          else read_records InField (String c "") rec acc r
      | InField =>
          if is_break c then read_records StartRecord "" [] (acc ++ [rec ++ [fld]])%list r
          else if is_comma c then read_records StartField "" (rec ++ [fld])%list acc r
          else read_records InField (snoc_char fld c) rec acc r
      | InQuoted =>
          if is_quote c then read_records QuoteInQuoted fld rec acc r
          else read_records InQuoted (snoc_char fld c) rec acc r
      | QuoteInQuoted =>
          if is_quote c then read_records InQuoted (snoc_char fld c) rec acc r
          else if is_break c then read_records StartRecord "" [] (acc ++ [rec ++ [fld]])%list r
          else if is_comma c then read_records StartField "" (rec ++ [fld])%list acc r
          else read_records InField (snoc_char fld c) rec acc r
      end
  end.

(** What the reader does once a field [f] is complete and the next character
    is the delimiter [t]. *)
Definition end_field (f : string) (rec : list string) (acc : list (list string))
    (t : ascii) (rest : string) : option (list (list string)) :=
  if is_break t then read_records StartRecord "" [] (acc ++ [rec ++ [f]])%list rest
  else read_records StartField "" (rec ++ [f])%list acc rest.

(** A parsed table: the header record, then the data records. *)
Definition read_csv (s : string) : option (list string * list (list string)) :=
  match read_records StartRecord "" [] [] s with
  | Some (header :: body) => Some (header, body)
  | _ => None
  end.

(** The table as text: column names, and every cell through [str_scalar]. *)
Definition stringified (df : DataFrame) : list string * list (list string) :=
  (column_names df, map (map str_scalar) (rows df)).

(** ** The networkx digraph built by the Visualization page

    [G.nodes()] iterates in insertion order.  [add_node] of a known vertex
    changes nothing; [add_edge] first inserts the endpoints that are not yet
    vertices, source before target. *)

Record DiGraph := mkDiGraph {
  g_nodes : list string;
  g_edges : list (string * string)
}.

Definition empty_graph : DiGraph := mkDiGraph [] [].

Definition add_node (G : DiGraph) (n : string) : DiGraph :=
  if decide (n ∈ g_nodes G) then G
  else mkDiGraph (g_nodes G ++ [n])%list (g_edges G).

Definition add_edge (G : DiGraph) (u v : string) : DiGraph :=
  let G' := add_node (add_node G u) v in
  if decide ((u, v) ∈ g_edges G') then G'
  else mkDiGraph (g_nodes G') (g_edges G' ++ [(u, v)])%list.

(** ** Page elements *)

(** Calls made on the matplotlib figure, in order.  The layout is computed by
    [nx.spring_layout]; only its arguments are recorded, its result [pos] is
    handed unchanged to the drawing calls. *)
Inductive plot_call :=
| SpringLayout (G : DiGraph) (k : Z) (iterations : Z) (seed : Z)
| DrawNodes (nodelist : list string) (node_color : string) (node_size : Z)
| DrawEdges (G : DiGraph) (edge_color : string) (connectionstyle : string)
| DrawLabels (G : DiGraph) (font_size : Z) (font_color : string)
| DrawEdgeLabels (G : DiGraph) (edge_labels : gmap (string * string) string)
| SetTitle (title : string).

Inductive element :=
| Markdown (body : string)
| Info (body : string)
| Success (body : string)
| Metric (label value : string) (help : option string)
| Selectbox (label : string) (options : list string)
| Code (body language : string)
| Dataframe (data : DataFrame)
| DownloadButton (label data file_name mime : string)
| Pyplot (fig : list plot_call).

(** ** Overview page *)

Definition sub_header (title : string) : string :=
  "<h2 class=" ++ dq ++ "sub-header" ++ dq ++ ">" ++ title ++ "</h2>".

Definition overview_info : string :=
  "
        ### 🎯 Model Description
        
        This food delivery system models the complete ecosystem including:
        - **Customers** placing orders
        - **Restaurants** serving dishes
        - **Dishes** being ordered
        - **Delivery Personnel** delivering orders
        - **Orders** connecting all entities
        
        The graph structure allows efficient traversal of relationships and complex queries.
        ".

Definition overview_success : string :=
  "
        ### ✨ Key Features
        
        - **Real-time order tracking**
        - **Customer preference analysis**
        - **Restaurant performance metrics**
        - **Delivery optimization**
        - **Recommendation systems**
        - **Network effect analysis**
        ".

(** The three metrics are string literals of the script, not computed from
    [graph_model] or [queries]. *)
Definition overview_metrics : list element :=
  [ Metric "🔷 Node Types" "5"
      (Some "Customer, Restaurant, Dish, DeliveryPerson, Order");
    Metric "🔗 Edge Types" "6"
      (Some "PLACES, FROM, CONTAINS, DELIVERS, SERVES, REVIEWS");
    Metric "🔍 Query Examples" "6"
      (Some "Common graph traversal patterns") ].

Definition overview_page : list element :=
  ([ Markdown (sub_header "📖 Graph Data Model Overview");
     Info overview_info;
     Success overview_success;
     Markdown "---" ] ++ overview_metrics)%list.

(** ** Queries page *)

(** The options of the select box: [f"{i+1}. {q['title']}"]. *)
Definition query_option_of (i : nat) (q : QueryExample) : string :=
  str_int (Z.of_nat i + 1) ++ ". " ++ q_title q.

Definition query_options (qs : list QueryExample) : list string :=
  imap query_option_of qs.

(** [int(query_option.split('.')[0]) - 1] *)
Definition query_idx_of (query_option : string) : result Z :=
  head_text ← getitem (split "." query_option) 0;
  n ← int_of_str head_text;
  mret (n - 1).

(** The page for the option the select box returns. *)
Definition queries_page (query_option : string) : result (list element) :=
  query_idx ← query_idx_of query_option;
  selected_query ← getitem queries query_idx;
  let csv := to_csv (q_result selected_query) in
  mret
    [ Markdown (sub_header "🔍 Graph Queries");
      Selectbox "Select a query to view:" (query_options queries);
      Markdown ("### " ++ q_title selected_query);
      Markdown ("*" ++ q_description selected_query ++ "*");
      Markdown "#### 💻 LanceGraph Query:";
      Code (q_query selected_query) "cypher";
      Markdown "#### 📊 Sample Result:";
      Dataframe (q_result selected_query);
      DownloadButton "📥 Download Result as CSV" csv
        ("query_" ++ str_int (query_idx + 1) ++ "_result.csv") "text/csv" ].

(** ** Visualization page *)

(** First loop: every node type becomes a vertex and gets its colour. *)
Definition add_nodes (ns : list NodeType)
    (st : DiGraph * gmap string string) : DiGraph * gmap string string :=
  foldl (fun '(G, node_colors) node =>
           (add_node G (node_type node),
            <[node_type node := node_color node]> node_colors))
        st ns.

(** Second loop: every edge type becomes an arc and gets its label, keyed by
    the (source, target) pair. *)
Definition add_edges (es : list EdgeType)
    (st : DiGraph * gmap (string * string) string)
    : DiGraph * gmap (string * string) string :=
  foldl (fun '(G, edge_labels) edge =>
           (add_edge G (edge_from edge) (edge_to edge),
            <[(edge_from edge, edge_to edge) := edge_relationship edge]> edge_labels))
        st es.

(** [node_colors[node]] *)
Definition lookup_color (node_colors : gmap string string) (node : string)
    : result string :=
  match node_colors !! node with
  | Some c => Ok c
  | None => Raise (KeyError node)
  end.

(** Colours.  [nx.draw_networkx_nodes] hands [node_color] to matplotlib,
    which raises ValueError on a text that is no colour.  A [#] followed by
    six hexadecimal digits is a colour.  Which other texts are colours
    (names, short forms, grey levels) is laid down in matplotlib's tables,
    which are not part of the script: [named_color] stands for them. *)
Definition is_hex_digit (c : ascii) : bool :=
  let n := nat_of_ascii c in
  ((48 <=? n) && (n <=? 57))%nat
  || ((65 <=? n) && (n <=? 70))%nat
  || ((97 <=? n) && (n <=? 102))%nat.

Fixpoint all_hex_digits (s : string) : bool :=
  match s with
  | EmptyString => true
  | String c r => is_hex_digit c && all_hex_digits r
  end.

Definition is_hex6 (s : string) : bool :=
  match s with
  | String c r =>
      Ascii.eqb c "#" && (String.length r =? 6)%nat && all_hex_digits r
  | EmptyString => false
  end.

Definition is_color (named_color : string -> bool) (c : string) : bool :=
  is_hex6 c || named_color c.

Definition check_color (named_color : string -> bool) (c : string)
    : result unit :=
  if is_color named_color c then Ok tt
  else Raise (ValueError
                ("'c' argument must be a color, a sequence of colors, or a "
                 ++ "sequence of numbers, not '" ++ c ++ "'")).

(** Third loop: one drawing call per vertex of [G], in [G.nodes()] order.
    For each vertex the colour is looked up first and then drawn with. *)
Fixpoint draw_nodes (named_color : string -> bool)
    (node_colors : gmap string string) (vs : list string)
    : result (list plot_call) :=
  match vs with
  | [] => mret []
  | node :: rest =>
      c ← lookup_color node_colors node;
      _ ← check_color named_color c;
      calls ← draw_nodes named_color node_colors rest;
      mret (DrawNodes [node] c 3000 :: calls)
  end.

Definition legend_entry (node : NodeType) : string :=
  "<div style='background-color: " ++ node_color node ++
  "; padding: 10px; border-radius: 5px; text-align: center; color: white; font-weight: bold;'>"
  ++ node_icon node ++ " " ++ node_type node ++ "</div>".

(** The legend is laid out in [st.columns(5)]: [cols[idx]] for [idx >= 5]
    raises IndexError. *)
Fixpoint legend (idx : nat) (ns : list NodeType) : result (list element) :=
  match ns with
  | [] => mret []
  | node :: rest =>
      _ ← getitem (replicate 5 tt) (Z.of_nat idx);
      tail ← legend (S idx) rest;
      mret (Markdown (legend_entry node) :: tail)
  end.

(** The graph, the colour table and the label table after both loops. *)
Definition build_graph (model : GraphModel)
    : DiGraph * gmap string string * gmap (string * string) string :=
  let '(G0, node_colors) := add_nodes (nodes model) (empty_graph, ∅) in
  let '(G, edge_labels) := add_edges (edges model) (G0, ∅) in
  (G, node_colors, edge_labels).

Definition visualization_page (named_color : string -> bool)
    (model : GraphModel) : result (list element) :=
  let '(G, node_colors, edge_labels) := build_graph model in
  let layout := SpringLayout G 2 50 42 in
  node_calls ← draw_nodes named_color node_colors (g_nodes G);
  let fig :=
    ([layout] ++ node_calls ++
     [ DrawEdges G "#666666" "arc3,rad=0.1";
       DrawLabels G 10 "white";
       DrawEdgeLabels G edge_labels;
       SetTitle "Food Delivery System - Graph Structure" ])%list in
  entries ← legend 0 (nodes model);
  mret ([ Markdown (sub_header "📈 Graph Visualization");
          Pyplot fig;
          Markdown "### 🎨 Legend" ] ++ entries)%list.

(** ** Observations on pages and registries *)

(** Value shown by the first metric with the given label. *)
Fixpoint metric_value (label : string) (page : list element) : option string :=
  match page with
  | [] => None
  | Metric l v _ :: rest =>
      if String.eqb l label then Some v else metric_value label rest
  | _ :: rest => metric_value label rest
  end.

Definition node_names (model : GraphModel) : list string :=
  map node_type (nodes model).

Definition endpoints (e : EdgeType) : string * string :=
  (edge_from e, edge_to e).

(** Both ends of an edge type name a node type of the registry. *)
Definition edge_resolved (model : GraphModel) (e : EdgeType) : Prop :=
  edge_from e ∈ node_names model ∧ edge_to e ∈ node_names model.

(** Some edge type has a source that names no node type. *)
Definition dangling_from (model : GraphModel) : Prop :=
  ∃ e, e ∈ edges model ∧ edge_from e ∉ node_names model.

(** Value of a digit sequence read left to right after [acc]. *)
Fixpoint uint_value (d : Decimal.uint) (acc : Z) : Z :=
  match d with
  | Decimal.Nil => acc
  | Decimal.D0 l => uint_value l (10 * acc + 0)
  | Decimal.D1 l => uint_value l (10 * acc + 1)
  | Decimal.D2 l => uint_value l (10 * acc + 2)
  | Decimal.D3 l => uint_value l (10 * acc + 3)
  | Decimal.D4 l => uint_value l (10 * acc + 4)
  | Decimal.D5 l => uint_value l (10 * acc + 5)
  | Decimal.D6 l => uint_value l (10 * acc + 6)
  | Decimal.D7 l => uint_value l (10 * acc + 7)
  | Decimal.D8 l => uint_value l (10 * acc + 8)
  | Decimal.D9 l => uint_value l (10 * acc + 9)
  end.

(** A registry whose only edge type starts at a name that is no node type. *)
Definition dangling_model : GraphModel :=
  {| nodes := [ mkNode "Customer" ["customer_id"] "#60a5fa" "👤" ];
     edges := [ mkEdge "Ghost" "Customer" "HAUNTS" [] ] |}.

(** The tables and the graph after each loop, one fold per variable. *)
Definition colors_after (ns : list NodeType) (colors : gmap string string)
    : gmap string string :=
  foldl (fun c n => <[node_type n := node_color n]> c) colors ns.

Definition labels_after (es : list EdgeType)
    (labels : gmap (string * string) string) : gmap (string * string) string :=
  foldl (fun l e => <[endpoints e := edge_relationship e]> l) labels es.

Definition graph_after_nodes (ns : list NodeType) (G : DiGraph) : DiGraph :=
  foldl (fun g n => add_node g (node_type n)) G ns.

Definition graph_after_edges (es : list EdgeType) (G : DiGraph) : DiGraph :=
  foldl (fun g e => add_edge g (edge_from e) (edge_to e)) G es.

(** The ends of the edge types, in the order the second loop meets them. *)
Definition edge_ends (es : list EdgeType) : list string :=
  flat_map (fun e => [edge_from e; edge_to e]) es.

(** [n] names no node type of the registry. *)
Definition unresolved (model : GraphModel) (n : string) : bool :=
  bool_decide (n ∉ node_names model).

Definition first_unresolved (model : GraphModel) : option string :=
  List.find (unresolved model) (edge_ends (edges model)).

(** The arcs of the graph are the keys of the label table, and no arc is
    stored twice. *)
Definition arcs_match_labels (G : DiGraph)
    (labels : gmap (string * string) string) : Prop :=
  NoDup (g_edges G) ∧ ∀ p, p ∈ g_edges G ↔ is_Some (labels !! p).

(** The three results of [build_graph]. *)
Definition graph_of (model : GraphModel) : DiGraph := (build_graph model).1.1.

Definition node_colors_of (model : GraphModel) : gmap string string :=
  (build_graph model).1.2.

Definition edge_labels_of (model : GraphModel)
    : gmap (string * string) string :=
  (build_graph model).2.

(** ** The whole script: frame, sidebar, sections *)

(** What the script emits besides plain elements: the page configuration,
    the sidebar image and radio group, expanders and tabs with their bodies.
    Columns and containers only place elements and are left out. *)
Inductive widget :=
| Plain (e : element)
| PageConfig (page_title page_icon layout : string)
| Image (url : string)
| Radio (label : string) (options : list string)
| Expander (label : string) (expanded : bool) (body : list element)
| Tab (label : string) (body : list element).

Definition page_css : string :=
  "
    <style>
    .main-header {
        font-size: 2.5rem;
        color: #1f77b4;
        text-align: center;
        margin-bottom: 1rem;
    }
    .sub-header {
        font-size: 1.5rem;
        color: #ff7f0e;
        margin-top: 2rem;
        margin-bottom: 1rem;
    }
    .node-card {
        background-color: #f0f2f6;
        padding: 1rem;
        border-radius: 0.5rem;
        border-left: 4px solid #1f77b4;
        margin-bottom: 1rem;
    }
    .query-box {
        background-color: #1e1e1e;
        color: #00ff00;
        padding: 1rem;
        border-radius: 0.5rem;
        font-family: 'Courier New', monospace;
        margin: 1rem 0;
    }
    </style>
".

Definition title_html : string :=
  "<h1 class=" ++ dq ++ "main-header" ++ dq ++ ">🍕 Food Delivery System - Graph Database Demo</h1>".

Definition subtitle_html : string :=
  "<p style=" ++ dq ++ "text-align: center; color: #666;" ++ dq ++ ">Using LanceGraph / Nebula Graph</p>".

Definition setup_text : string :=
  "
        ### 🔧 Database Setup
        
        #### LanceGraph Installation:
        ```bash
        pip install lancegraph
        ```
        
        #### Nebula Graph Installation:
        ```bash
        # Install Nebula Graph
        docker pull vesoft/nebula-graphd:latest
        docker pull vesoft/nebula-storaged:latest
        docker pull vesoft/nebula-metad:latest
        ```
        
        ### 📊 Schema Creation
        ".

Definition schema_code : string :=
  "
# Create Node Types
CREATE TAG Customer (customer_id string, name string, phone string, address string, join_date date)
CREATE TAG Restaurant (restaurant_id string, name string, cuisine_type string, rating float, location string)
CREATE TAG Dish (dish_id string, name string, price float, category string, is_vegetarian bool)
CREATE TAG DeliveryPerson (person_id string, name string, phone string, vehicle_type string, rating float)
CREATE TAG Order (order_id string, order_date datetime, total_amount float, status string, delivery_time int)

# Create Edge Types
CREATE EDGE PLACES (timestamp datetime)
CREATE EDGE FROM (order_date datetime)
CREATE EDGE CONTAINS (quantity int, price float)
CREATE EDGE DELIVERS (pickup_time datetime, delivery_time datetime)
CREATE EDGE SERVES (availability bool)
CREATE EDGE REVIEWS (rating float, comment string, date datetime)
        ".

Definition python_code : string :=
  "
from lancegraph import Graph

# Initialize connection
graph = Graph(" ++ dq ++ "food_delivery" ++ dq ++ ")

# Insert Customer
graph.execute('''
    INSERT VERTEX Customer (customer_id, name, phone, address, join_date)
    VALUES (" ++ dq ++ "C001" ++ dq ++ ", " ++ dq ++ "Alice" ++ dq ++ ", " ++ dq ++ "+91-9876543210" ++ dq ++ ", " ++ dq ++ "Mumbai, MH" ++ dq ++ ", " ++ dq ++ "2024-01-15" ++ dq ++ ")
''')

# Insert Order
graph.execute('''
    INSERT VERTEX Order (order_id, order_date, total_amount, status, delivery_time)
    VALUES (" ++ dq ++ "ORD001" ++ dq ++ ", " ++ dq ++ "2024-12-29 14:30:00" ++ dq ++ ", 450.00, " ++ dq ++ "delivered" ++ dq ++ ", 28)
''')

# Create Relationship
graph.execute('''
    INSERT EDGE PLACES (timestamp)
    VALUES (" ++ dq ++ "C001" ++ dq ++ " -> " ++ dq ++ "ORD001" ++ dq ++ ", " ++ dq ++ "2024-12-29 14:30:00" ++ dq ++ ")
''')

# Query Example
result = graph.execute('''
    MATCH (c:Customer {name: 'Alice'})-[:PLACES]->(o:Order)
    RETURN c.name, o.order_id, o.total_amount
''')

for row in result:
    print(row)
        ".

Definition deployment_text : string :=
  "
        ### 🚀 Deployment Considerations
        
        #### Scalability:
        - **Horizontal Scaling**: Distribute graph across multiple nodes
        - **Sharding**: Partition by customer regions or restaurant zones
        - **Replication**: Multi-master setup for high availability
        
        #### Performance Optimization:
        - Index frequently queried properties (customer_id, order_id)
        - Cache hot paths (popular restaurants, frequent customers)
        - Use connection pooling for concurrent queries
        
        #### Monitoring:
        - Query performance metrics
        - Graph size and growth rate
        - Relationship traversal depth
        - Cache hit rates
        
        #### Use Cases:
        1. **Real-time Recommendations**: Suggest dishes based on order history
        2. **Fraud Detection**: Identify suspicious ordering patterns
        3. **Delivery Optimization**: Find optimal delivery routes
        4. **Customer Segmentation**: Group customers by preferences
        5. **Restaurant Analytics**: Performance and popularity metrics
        ".

Definition footer_html : string :=
  "
<div style='text-align: center; color: #666; padding: 2rem;'>
    <p><strong>Food Delivery Graph Database Demo</strong></p>
    <p>Built with Streamlit | Designed for LanceGraph / Nebula Graph</p>
    <p>For Technical Evaluation - Graph Database Assignment</p>
</div>
".

(** The options of the sidebar radio group. *)
Definition pages : list string :=
  [ "📖 Overview"; "🔷 Nodes"; "🔗 Edges"; "🔍 Queries"; "📈 Visualization";
    "💾 Implementation" ].

Definition sidebar : list widget :=
  [ Image "https://via.placeholder.com/150/1f77b4/FFFFFF?text=Graph+DB";
    Plain (Markdown "## 📊 Navigation");
    Radio "Select Section:" pages;
    Plain (Markdown "---");
    Plain (Markdown "### 🎯 Quick Stats");
    Plain (Metric "Node Types" "5" None);
    Plain (Metric "Edge Types" "6" None);
    Plain (Metric "Sample Queries" "6" None) ].

(** [", ".join([f"`{prop}`" for prop in props])] *)
Definition backticked (props : list string) : string :=
  join ", " (map (fun prop => "`" ++ prop ++ "`") props).

(** Nodes page: five elements per node type. *)
Definition node_card (node : NodeType) : list element :=
  [ Markdown ("<h1 style='text-align: center; font-size: 4rem;'>"
              ++ node_icon node ++ "</h1>");
    Markdown ("### " ++ node_type node);
    Markdown "**Properties:**";
    Markdown (backticked (node_properties node));
    Markdown "---" ].

Definition nodes_page (model : GraphModel) : list element :=
  Markdown (sub_header "🔷 Node Types (Vertices)")
  :: flat_map node_card (nodes model).

(** Edges page: one expander per edge type; the properties line is emitted
    only for a non-empty property list. *)
Definition edge_expander (edge : EdgeType) : widget :=
  Expander
    ("**" ++ edge_relationship edge ++ "**: " ++ edge_from edge ++ " → "
     ++ edge_to edge)
    true
    ([ Markdown ("**From:** `" ++ edge_from edge ++ "`");
       Markdown "<p style='text-align: center; font-size: 1.5rem;'>➡️</p>";
       Markdown ("**To:** `" ++ edge_to edge ++ "`") ]
     ++ match edge_properties edge with
        | [] => []
        | _ :: _ =>
            [ Markdown ("**Properties:** " ++ backticked (edge_properties edge)) ]
        end)%list.

Definition edges_page (model : GraphModel) : list widget :=
  Plain (Markdown (sub_header "🔗 Edge Types (Relationships)"))
  :: map edge_expander (edges model).

Definition implementation_page : list widget :=
  [ Plain (Markdown (sub_header "💾 Implementation Details"));
    Tab "🔧 Setup" [ Markdown setup_text; Code schema_code "sql" ];
    Tab "📝 Code Examples"
      [ Markdown "### 📝 Python Code Examples"; Code python_code "python" ];
    Tab "🚀 Deployment" [ Markdown deployment_text ] ].

(** What every run emits before and after the selected section. *)
Definition app_top : list widget :=
  ([ PageConfig "Food Delivery Graph Database" "🍕" "wide";
     Plain (Markdown page_css);
     Plain (Markdown title_html);
     Plain (Markdown subtitle_html) ] ++ sidebar)%list.

Definition app_footer : list widget :=
  [ Plain (Markdown "---"); Plain (Markdown footer_html) ].

(** The section chosen by the [if]/[elif] chain on [page]; no branch matches
    a value that is none of the six options. *)
Definition section (named_color : string -> bool)
    (page query_option : string) : result (list widget) :=
  if String.eqb page "📖 Overview" then mret (map Plain overview_page)
  else if String.eqb page "🔷 Nodes" then mret (map Plain (nodes_page graph_model))
  else if String.eqb page "🔗 Edges" then mret (edges_page graph_model)
  else if String.eqb page "🔍 Queries" then
    elems ← queries_page query_option; mret (map Plain elems)
  else if String.eqb page "📈 Visualization" then
    elems ← visualization_page named_color graph_model; mret (map Plain elems)
  else if String.eqb page "💾 Implementation" then mret implementation_page
  else mret [].

(** One run of the script for the value [page] of the radio group and the
    value [query_option] of the select box, with matplotlib's colour tables
    [named_color].  An exception in the section stops the run before the
    footer. *)
Definition app (named_color : string -> bool)
    (page query_option : string) : result (list widget) :=
  body ← section named_color page query_option;
  mret (app_top ++ body ++ app_footer)%list.

(** ** Tables as text, column by column *)

(** The texts of the cells of a column, top to bottom. *)
Definition column_texts (c : column) : list string :=
  match c with
  | StrColumn values => values
  | IntColumn values => map str_int values
  | FloatColumn values => map str_float values
  end.

(** The rows of equally long columns: the heads, then the rows of the
    tails. *)
Fixpoint transpose (cols : list (list string)) : list (list string) :=
  match cols with
  | [] => []
  | [c] => map (fun x => [x]) c
  | c :: rest => zip_with cons c (transpose rest)
  end.

(** The cell texts of a table, row by row, read off its columns. *)
Definition table_texts (df : DataFrame) : list (list string) :=
  transpose (map (fun col => column_texts (snd col)) (columns df)).

(** What [pd.DataFrame] and the int64 dtype ask of the lists: equal lengths,
    distinct names (they are dictionary keys), integers of 64 bits. *)
Definition rectangular (df : DataFrame) : bool :=
  forallb (fun col => (length (column_cells (snd col)) =? nrows df)%nat)
    (columns df).

Definition distinct_names (df : DataFrame) : bool :=
  bool_decide (NoDup (column_names df)).

Definition int64 (z : Z) : bool := (- 2 ^ 63 <=? z) && (z <? 2 ^ 63).

(** Only text and int64 columns: no float column. *)
Definition text_and_int64_columns (df : DataFrame) : bool :=
  forallb (fun col => match snd col with
                      | StrColumn _ => true
                      | IntColumn values => forallb int64 values
                      | FloatColumn _ => false
                      end)
    (columns df).

Fixpoint has_carriage_return (s : string) : bool :=
  match s with
  | EmptyString => false
  | String c r => is_carriage_return c || has_carriage_return r
  end.

(** Every column name and every cell text of the table. *)
Definition all_texts (df : DataFrame) : list string :=
  (column_names df
   ++ flat_map (fun col => column_texts (snd col)) (columns df))%list.

Definition no_carriage_return (df : DataFrame) : bool :=
  forallb (fun f => negb (has_carriage_return f)) (all_texts df).

(** No text of the table needs quoting. *)
Definition no_quoting_needed (df : DataFrame) : bool :=
  forallb (fun f => negb (needs_quote f)) (all_texts df).

(** Every node type has a colour matplotlib accepts. *)
Definition colors_accepted (named_color : string -> bool)
    (model : GraphModel) : Prop :=
  Forall (fun n => is_color named_color (node_color n) = true) (nodes model).

(** The first download button of a page: file name, MIME type and the lines
    of its data. *)
Fixpoint download_of (page : list element)
    : option (string * string * list string) :=
  match page with
  | [] => None
  | DownloadButton _ data file_name mime :: _ =>
      Some (file_name, mime, text_lines data)
  | _ :: rest => download_of rest
  end.

Definition page_download (page : result (list element))
    : option (string * string * list string) :=
  match page with
  | Ok elems => download_of elems
  | Raise _ => None
  end.

(** The text holds a line feed. *)
Fixpoint has_line_feed (s : string) : bool :=
  match s with
  | EmptyString => false
  | String c r => Ascii.eqb c (ascii_of_nat 10) || has_line_feed r
  end.

(** The fields of a line that is written without any quoting. *)
Definition plain_line (fields : list string) : Prop :=
  Forall (fun f => needs_quote f = false) fields ∧ fields ≠ [""].

(** * The static registry *)

(** C7: the registry has exactly the five node types Customer, Restaurant,
    Dish, DeliveryPerson, Order and the six edge types PLACES, FROM, CONTAINS,
    DELIVERS, SERVES, REVIEWS, and the Overview page shows 5 and 6 as its
    node-type and edge-type counts. *)
Theorem registry_census_and_overview_counts :
  node_names graph_model
    = ["Customer"; "Restaurant"; "Dish"; "DeliveryPerson"; "Order"]
  ∧ length (nodes graph_model) = 5%nat
  ∧ map edge_relationship (edges graph_model)
    = ["PLACES"; "FROM"; "CONTAINS"; "DELIVERS"; "SERVES"; "REVIEWS"]
  ∧ length (edges graph_model) = 6%nat
  ∧ metric_value "🔷 Node Types" overview_page
    = Some (str_int (Z.of_nat (length (nodes graph_model))))
  ∧ metric_value "🔗 Edge Types" overview_page
    = Some (str_int (Z.of_nat (length (edges graph_model))))
  ∧ metric_value "🔷 Node Types" overview_page = Some "5"
  ∧ metric_value "🔗 Edge Types" overview_page = Some "6".
Proof. repeat split; reflexivity. Qed.

(** C8: every edge type of the static registry starts and ends at a node type
    of the registry. *)
Theorem static_edges_resolved :
  Forall (edge_resolved graph_model) (edges graph_model).
Proof.
  unfold edge_resolved, node_names; simpl.
  repeat constructor; simpl; set_solver.
Qed.

(** * Python builtins: integers as text, list indexing *)

Section IntText.

Implicit Types (d : Decimal.uint) (z acc : Z).

Lemma uint_value_pos d (p : positive) :
  uint_value d (Z.pos p) = Z.pos (Pos.of_uint_acc d p).
Proof.
  revert p. induction d; intros p; cbn [uint_value Pos.of_uint_acc]; [done|..];
    rewrite <- IHd; f_equal; lia.
Qed.

Lemma uint_value_0 d : uint_value d 0 = Z.of_uint d.
Proof.
  unfold Z.of_uint.
  induction d; cbn [uint_value Pos.of_uint Z.of_N]; [done|done|..];
    rewrite <- uint_value_pos; reflexivity.
Qed.

Lemma int_digits_uint d acc (b : bool) :
  d ≠ Decimal.Nil ∨ b = true →
  int_digits (NilEmpty.string_of_uint d) acc b = Some (uint_value d acc).
Proof.
  revert acc b. induction d; intros acc b Hb;
    [destruct Hb as [?| ->]; done|..];
    cbn [NilEmpty.string_of_uint uint_value];
    (etransitivity; [|apply (IHd _ true); by right]); reflexivity.
Qed.

Lemma append_String (c : ascii) (s t : string) :
  String c s ++ t = String c (s ++ t).
Proof. reflexivity. Qed.

Lemma lstrip_uint d : lstrip (NilEmpty.string_of_uint d) = NilEmpty.string_of_uint d.
Proof. by destruct d. Qed.

Lemma rstrip_uint d : rstrip (NilEmpty.string_of_uint d) = NilEmpty.string_of_uint d.
Proof.
  induction d; [done|..]; cbn [NilEmpty.string_of_uint rstrip]; rewrite IHd;
    by destruct (NilEmpty.string_of_uint d).
Qed.

(** No decimal point in a printed number: the first part of the split is the
    whole number. *)
Lemma split_uint d (rest : string) :
  split "." (NilEmpty.string_of_uint d ++ String "." rest)
  = NilEmpty.string_of_uint d :: split "." rest.
Proof.
  induction d; [done|..]; cbn [NilEmpty.string_of_uint];
    rewrite append_String; simpl; rewrite IHd; reflexivity.
Qed.

Lemma str_int_pos (p : positive) :
  str_int (Z.pos p) = NilEmpty.string_of_uint (Pos.to_uint p).
Proof.
  unfold str_int; simpl. unfold NilZero.string_of_uint.
  pose proof (DecimalPos.Unsigned.to_uint_nonnil p).
  by destruct (Pos.to_uint p).
Qed.

(** [int(str(n)) == n] for a positive [n]. *)
Lemma int_of_str_pos (p : positive) : int_of_str (str_int (Z.pos p)) = Ok (Z.pos p).
Proof.
  rewrite str_int_pos. unfold int_of_str, strip.
  rewrite lstrip_uint, rstrip_uint.
  pose proof (DecimalPos.Unsigned.to_uint_nonnil p) as Hnn.
  pose proof (DecimalPos.Unsigned.of_to p) as Hval.
  pose proof (int_digits_uint (Pos.to_uint p) 0 false (or_introl Hnn)) as Hd.
  rewrite uint_value_0 in Hd. unfold Z.of_uint in Hd. rewrite Hval in Hd.
  simpl in Hd.
  destruct (Pos.to_uint p); [done|..]; cbn [NilEmpty.string_of_uint] in *;
    cbn [Ascii.eqb Bool.eqb]; by rewrite Hd.
Qed.

(** Indexing a list inside its bounds. *)
Lemma getitem_head {A} (x : A) (l : list A) : getitem (x :: l) 0 = Ok x.
Proof.
  unfold getitem. cbn [length]. rewrite Nat2Z.inj_succ.
  replace (0 <? 0) with false by done. simpl orb.
  destruct (Z.leb_spec (Z.succ (Z.of_nat (length l))) 0); [lia|done].
Qed.

Lemma getitem_lookup {A} (l : list A) (i : nat) (x : A) :
  l !! i = Some x → getitem l (Z.of_nat i) = Ok x.
Proof.
  intros Hi. pose proof (lookup_lt_Some _ _ _ Hi) as Hlt.
  unfold getitem. cbv zeta.
  assert (E1 : (Z.of_nat i <? 0) = false) by (apply Z.ltb_ge; lia).
  assert (E2 : (Z.of_nat (length l) <=? Z.of_nat i) = false)
    by (apply Z.leb_gt; lia).
  rewrite E1. rewrite E1, E2. cbn [orb]. rewrite Nat2Z.id, Hi. reflexivity.
Qed.

End IntText.

(** * The loops of the Visualization page *)

Section GraphLoops.

Implicit Types (G : DiGraph) (ns : list NodeType) (es : list EdgeType).
Implicit Types (colors : gmap string string).
Implicit Types (labels : gmap (string * string) string).

Lemma add_nodes_split ns G colors :
  add_nodes ns (G, colors) = (graph_after_nodes ns G, colors_after ns colors).
Proof.
  revert G colors. induction ns as [|n ns IH]; intros G colors; [done|].
  unfold add_nodes in *. simpl. apply IH.
Qed.

Lemma add_edges_split es G labels :
  add_edges es (G, labels) = (graph_after_edges es G, labels_after es labels).
Proof.
  revert G labels. induction es as [|e es IH]; intros G labels; [done|].
  unfold add_edges in *. simpl. apply IH.
Qed.

Lemma build_graph_split model :
  build_graph model
  = (graph_after_edges (edges model)
       (graph_after_nodes (nodes model) empty_graph),
     colors_after (nodes model) ∅,
     labels_after (edges model) ∅).
Proof.
  unfold build_graph. rewrite add_nodes_split, add_edges_split. done.
Qed.

(** The colour table knows exactly the node types seen so far. *)
Lemma colors_after_None ns colors k :
  colors_after ns colors !! k = None
  ↔ colors !! k = None ∧ k ∉ map node_type ns.
Proof.
  revert colors. induction ns as [|n ns IH]; intros colors; simpl.
  - split; [intros H; split; [done|apply not_elem_of_nil] | tauto].
  - unfold colors_after in *. simpl. rewrite IH.
    rewrite lookup_insert_None, not_elem_of_cons. intuition congruence.
Qed.

Lemma elem_of_add_node G n x :
  x ∈ g_nodes (add_node G n) ↔ x ∈ g_nodes G ∨ x = n.
Proof.
  unfold add_node. case_decide; simpl.
  - split; [by left | by intros [?| ->]].
  - rewrite elem_of_app, list_elem_of_singleton. done.
Qed.

Lemma elem_of_add_edge G u v x :
  x ∈ g_nodes (add_edge G u v) ↔ x ∈ g_nodes G ∨ x = u ∨ x = v.
Proof.
  unfold add_edge. case_decide; simpl; rewrite !elem_of_add_node; tauto.
Qed.

Lemma elem_of_graph_after_nodes ns G x :
  x ∈ g_nodes (graph_after_nodes ns G)
  ↔ x ∈ g_nodes G ∨ x ∈ map node_type ns.
Proof.
  revert G. induction ns as [|n ns IH]; intros G; simpl.
  - rewrite elem_of_nil. tauto.
  - unfold graph_after_nodes in *. simpl.
    rewrite IH, elem_of_add_node, elem_of_cons. tauto.
Qed.

Lemma elem_of_graph_after_edges es G x :
  x ∈ g_nodes (graph_after_edges es G)
  ↔ x ∈ g_nodes G ∨ ∃ e, e ∈ es ∧ (x = edge_from e ∨ x = edge_to e).
Proof.
  revert G. induction es as [|e es IH]; intros G; simpl.
  - split; [tauto|]. intros [?|(e & He & _)]; [done|].
    by apply elem_of_nil in He.
  - unfold graph_after_edges in *. simpl.
    rewrite IH, elem_of_add_edge. split.
    + intros [[?|?]|(e' & ? & ?)]; [by left|right; exists e|right; exists e'];
        (split; [|done]); [left|by right].
    + intros [?|(e' & [->|?]%elem_of_cons & ?)];
        [by left; left|by left; right|right; by exists e'].
Qed.

(** The drawing loop goes through when every vertex has a colour that
    matplotlib accepts. *)
Lemma draw_nodes_ok named_color colors (vs : list string) :
  (∀ n, n ∈ vs → ∃ c, colors !! n = Some c ∧ is_color named_color c = true) →
  ∃ calls, draw_nodes named_color colors vs = Ok calls
           ∧ length calls = length vs.
Proof.
  induction vs as [|v vs IH]; intros Hall; [by exists []|].
  cbn [draw_nodes]. unfold lookup_color, check_color.
  destruct (Hall v) as (c & Hc & Hvalid); [by left|].
  rewrite Hc. cbn [mbind result_bind]. rewrite Hvalid.
  destruct IH as (calls & -> & Hlen); [intros; apply Hall; by right|].
  eexists. split; [reflexivity|]. simpl. by rewrite Hlen.
Qed.

(** It stops at the first vertex that has no colour or a colour matplotlib
    rejects: with KeyError in the first case, ValueError in the second. *)
Lemma draw_nodes_fails named_color colors (vs : list string) :
  (∃ n, n ∈ vs ∧ colors !! n = None) →
  ∃ e, draw_nodes named_color colors vs = Raise e
       ∧ ((∃ k, e = KeyError k ∧ k ∈ vs ∧ colors !! k = None)
          ∨ (exn_class e = "ValueError"
             ∧ ∃ n c, n ∈ vs ∧ colors !! n = Some c
                      ∧ is_color named_color c = false)).
Proof.
  induction vs as [|v vs IH]; intros (n & Hn & Hnone).
  - by apply elem_of_nil in Hn.
  - cbn [draw_nodes]. unfold lookup_color, check_color.
    destruct (colors !! v) as [c|] eqn:Hv; cbn [mbind result_bind].
    + destruct (is_color named_color c) eqn:Hc.
      * apply elem_of_cons in Hn as [->|Hn]; [congruence|].
        destruct IH as (e & -> & Hcases); [by exists n|].
        exists e. split; [reflexivity|].
        destruct Hcases as [(k & -> & Hk & Hknone)|(Hclass & n' & c' & Hn' & Hc')].
        -- left. exists k. split; [done|]. split; [by right|done].
        -- right. split; [done|]. exists n', c'. split; [by right|done].
      * eexists. split; [reflexivity|]. right. split; [reflexivity|].
        exists v, c. split; [by left|done].
    + exists (KeyError v). split; [reflexivity|]. left.
      exists v. split; [done|]. split; [by left|done].
Qed.

(** A label is overwritten only by a later edge on the same pair. *)
Lemma labels_after_lookup_other es labels k :
  k ∉ map endpoints es → labels_after es labels !! k = labels !! k.
Proof.
  revert labels. induction es as [|e es IH]; intros labels Hk; [done|].
  simpl in Hk. apply not_elem_of_cons in Hk as [Hne Hk].
  unfold labels_after in *. simpl. rewrite IH by done.
  by rewrite lookup_insert_ne.
Qed.

Lemma labels_after_lookup es labels e :
  NoDup (map endpoints es) → e ∈ es →
  labels_after es labels !! endpoints e = Some (edge_relationship e).
Proof.
  revert labels. induction es as [|e0 es IH]; intros labels Hnd He.
  - by apply elem_of_nil in He.
  - simpl in Hnd. apply NoDup_cons in Hnd as [Hfresh Hnd].
    apply elem_of_cons in He as [->|He].
    + change (labels_after (e0 :: es) labels)
        with (labels_after es (<[endpoints e0 := edge_relationship e0]> labels)).
      rewrite labels_after_lookup_other by done. apply lookup_insert_eq.
    + change (labels_after (e0 :: es) labels)
        with (labels_after es (<[endpoints e0 := edge_relationship e0]> labels)).
      by apply IH.
Qed.

Lemma labels_after_size es labels :
  NoDup (map endpoints es) →
  (∀ e, e ∈ es → labels !! endpoints e = None) →
  size (labels_after es labels) = (size labels + length es)%nat.
Proof.
  revert labels. induction es as [|e0 es IH]; intros labels Hnd Hfree.
  - simpl. lia.
  - simpl in Hnd. apply NoDup_cons in Hnd as [Hfresh Hnd].
    change (labels_after (e0 :: es) labels)
      with (labels_after es (<[endpoints e0 := edge_relationship e0]> labels)).
    rewrite IH; [|done|].
    + rewrite map_size_insert_None by (apply Hfree; by left). simpl. lia.
    + intros e He. rewrite lookup_insert_ne.
      * apply Hfree. by right.
      * intros Heq. apply Hfresh. rewrite Heq. by apply list_elem_of_fmap_2.
Qed.

(** The page, once the drawing loop and the legend have gone through. *)
Lemma visualization_page_ok named_color model calls entries :
  let G := graph_after_edges (edges model)
             (graph_after_nodes (nodes model) empty_graph) in
  draw_nodes named_color (colors_after (nodes model) ∅) (g_nodes G) = Ok calls →
  legend 0 (nodes model) = Ok entries →
  visualization_page named_color model
  = Ok ([ Markdown (sub_header "📈 Graph Visualization");
          Pyplot ([SpringLayout G 2 50 42] ++ calls ++
                  [ DrawEdges G "#666666" "arc3,rad=0.1";
                    DrawLabels G 10 "white";
                    DrawEdgeLabels G (labels_after (edges model) ∅);
                    SetTitle "Food Delivery System - Graph Structure" ]);
          Markdown "### 🎨 Legend" ] ++ entries)%list.
Proof.
  intros G Hdraw Hlegend. unfold visualization_page.
  rewrite build_graph_split. fold G. rewrite Hdraw. simpl.
  rewrite Hlegend. done.
Qed.

(** A failure of the drawing loop is the failure of the page. *)
Lemma visualization_page_raises named_color model (e : exn) :
  draw_nodes named_color (colors_after (nodes model) ∅)
    (g_nodes (graph_after_edges (edges model)
                (graph_after_nodes (nodes model) empty_graph)))
  = Raise e →
  visualization_page named_color model = Raise e.
Proof.
  intros Hdraw. unfold visualization_page.
  rewrite build_graph_split, Hdraw. reflexivity.
Qed.

(** A colour in the table is the colour of some node type of that name. *)
Lemma colors_after_Some ns colors (k c : string) :
  colors_after ns colors !! k = Some c →
  colors !! k = Some c
  ∨ ∃ n, n ∈ ns ∧ node_type n = k ∧ node_color n = c.
Proof.
  revert colors. induction ns as [|n ns IH]; intros colors Hk; [by left|].
  change (colors_after (n :: ns) colors)
    with (colors_after ns (<[node_type n := node_color n]> colors)) in Hk.
  apply IH in Hk as [Hk|(n' & Hn' & Hname & Hcol)].
  - apply lookup_insert_Some in Hk as [[<- <-]|[_ Hk]]; [|by left].
    right. exists n. split; [by left|done].
  - right. exists n'. split; [by right|done].
Qed.

(** Vertices of the graph: with distinct node-type names and every edge end
    resolved, they are the node-type names, in registry order. *)
Lemma g_nodes_after_nodes ns G :
  NoDup (g_nodes G ++ map node_type ns) →
  g_nodes (graph_after_nodes ns G) = (g_nodes G ++ map node_type ns)%list.
Proof.
  revert G. induction ns as [|n ns IH]; intros G Hnd; simpl.
  - by rewrite app_nil_r.
  - change (graph_after_nodes (n :: ns) G)
      with (graph_after_nodes ns (add_node G (node_type n))).
    assert (Hfresh : node_type n ∉ g_nodes G).
    { apply NoDup_app in Hnd as (_ & Hdisj & _). intros Hin.
      apply (Hdisj _ Hin). by left. }
    assert (Hadd : g_nodes (add_node G (node_type n))
                   = (g_nodes G ++ [node_type n])%list).
    { unfold add_node. by case_decide. }
    rewrite IH; rewrite Hadd, <- app_assoc; done.
Qed.

Lemma g_nodes_add_edge_known G u v :
  u ∈ g_nodes G → v ∈ g_nodes G → g_nodes (add_edge G u v) = g_nodes G.
Proof.
  intros Hu Hv.
  assert (Hadd : add_node (add_node G u) v = G).
  { unfold add_node at 2. rewrite decide_True by done.
    unfold add_node. by rewrite decide_True. }
  unfold add_edge. rewrite Hadd. by case_decide.
Qed.

Lemma g_nodes_after_edges es G :
  (∀ e, e ∈ es → edge_from e ∈ g_nodes G ∧ edge_to e ∈ g_nodes G) →
  g_nodes (graph_after_edges es G) = g_nodes G.
Proof.
  revert G. induction es as [|e es IH]; intros G Hres; [done|].
  change (graph_after_edges (e :: es) G)
    with (graph_after_edges es (add_edge G (edge_from e) (edge_to e))).
  destruct (Hres e) as [Hf Ht]; [by left|].
  rewrite IH; rewrite g_nodes_add_edge_known by done; [done|].
  intros e' He'. apply Hres. by right.
Qed.

Lemma graph_vertices_are_node_names model :
  NoDup (node_names model) →
  Forall (edge_resolved model) (edges model) →
  g_nodes (graph_after_edges (edges model)
             (graph_after_nodes (nodes model) empty_graph))
  = node_names model.
Proof.
  intros Hnd Hres.
  assert (Hnodes : g_nodes (graph_after_nodes (nodes model) empty_graph)
                   = node_names model).
  { by rewrite g_nodes_after_nodes. }
  rewrite g_nodes_after_edges; [done|].
  intros e He. rewrite Hnodes. rewrite Forall_forall in Hres. by apply Hres.
Qed.

(** The legend fits its five columns as long as there are at most five node
    types. *)
Lemma legend_ok ns (idx : nat) :
  (idx + length ns ≤ 5)%nat →
  ∃ entries, legend idx ns = Ok entries ∧ length entries = length ns.
Proof.
  revert idx. induction ns as [|n ns IH]; intros idx Hfit; [by exists []|].
  simpl in Hfit. cbn [legend].
  rewrite (getitem_lookup (replicate 5 ()) idx ())
    by (apply lookup_replicate_2; lia).
  destruct (IH (S idx)) as (entries & -> & Hlen); [lia|].
  eexists. split; [done|]. simpl. by rewrite Hlen.
Qed.

(** With every edge end resolved, every colour accepted and at most five
    node types, both loops and the legend go through. *)
Lemma visualization_page_renders named_color model :
  Forall (edge_resolved model) (edges model) →
  colors_accepted named_color model →
  (length (nodes model) ≤ 5)%nat →
  ∃ elems, visualization_page named_color model = Ok elems.
Proof.
  intros Hres Hcolors Hfit.
  destruct (draw_nodes_ok named_color (colors_after (nodes model) ∅)
              (g_nodes (graph_after_edges (edges model)
                          (graph_after_nodes (nodes model) empty_graph))))
    as (calls & Hcalls & _).
  { intros n Hn.
    assert (Hname : n ∈ node_names model).
    { apply elem_of_graph_after_edges in Hn as [Hn|(e & He & Hn)].
      - apply elem_of_graph_after_nodes in Hn as [Hn|Hn]; [|done].
        by apply elem_of_nil in Hn.
      - rewrite Forall_forall in Hres. destruct (Hres e He) as [Hf Ht].
        by destruct Hn as [->| ->]. }
    destruct (colors_after (nodes model) ∅ !! n) as [c|] eqn:Hc.
    - exists c. split; [done|].
      apply colors_after_Some in Hc as [Hc|(n' & Hn' & _ & <-)].
      + by rewrite lookup_empty in Hc.
      + unfold colors_accepted in Hcolors. rewrite Forall_forall in Hcolors.
        by apply Hcolors.
    - apply colors_after_None in Hc as [_ Hnot]. done. }
  destruct (legend_ok (nodes model) 0) as (entries & Hentries & _); [lia|].
  eexists. by apply (visualization_page_ok named_color model calls entries).
Qed.

(** On a registry without node and edge types the script hands the empty
    graph to the layout and draws nothing; what the layout returns for it is
    decided inside networkx. *)
Lemma visualization_page_empty_registry named_color :
  visualization_page named_color (mkModel [] [])
  = Ok [ Markdown (sub_header "📈 Graph Visualization");
         Pyplot [ SpringLayout empty_graph 2 50 42;
                  DrawEdges empty_graph "#666666" "arc3,rad=0.1";
                  DrawLabels empty_graph 10 "white";
                  DrawEdgeLabels empty_graph ∅;
                  SetTitle "Food Delivery System - Graph Structure" ];
         Markdown "### 🎨 Legend" ].
Proof. reflexivity. Qed.

End GraphLoops.

(** * Dangling edge sources *)

(** C1, as the spec words it, fails: on a registry whose edge starts at the
    unknown name Ghost the page stops with KeyError, the failed lookup in the
    colour table, and not with a ModelIntegrityError. *)
Lemma dangling_source_is_not_ModelIntegrityError :
  dangling_from dangling_model
  ∧ ∀ named_color,
      visualization_page named_color dangling_model = Raise (KeyError "Ghost")
      ∧ ¬ (∃ e, visualization_page named_color dangling_model = Raise e
                ∧ exn_class e = "ModelIntegrityError").
Proof.
  split.
  - exists (mkEdge "Ghost" "Customer" "HAUNTS" []). split; [by left|].
    apply (bool_decide_unpack _). by vm_compute.
  - intros named_color. split; [reflexivity|].
    intros (e & He & Hclass).
    change (visualization_page named_color dangling_model)
      with (@Raise (list element) (KeyError "Ghost")) in He.
    inversion He; subst. discriminate Hclass.
Qed.

(** C1, amended: whenever some edge type's source names no node type, the
    Visualization page is aborted by an exception of the node drawing loop,
    and never by a ModelIntegrityError: either by KeyError, the key being an
    end of some edge type that names no node type, or, when a vertex drawn
    before that one has a colour matplotlib rejects, by ValueError. *)
Theorem dangling_source_aborts_with_KeyError (named_color : string → bool)
    (model : GraphModel) :
  dangling_from model →
  ∃ e, visualization_page named_color model = Raise e
       ∧ ((∃ k, e = KeyError k
                ∧ (k ∉ node_names model)
                ∧ (∃ ed, ed ∈ edges model
                         ∧ (k = edge_from ed ∨ k = edge_to ed)))
          ∨ (exn_class e = "ValueError"
             ∧ ∃ n, n ∈ nodes model
                    ∧ is_color named_color (node_color n) = false)).
Proof.
  intros (ed & Hed & Hdangling).
  destruct (draw_nodes_fails named_color (colors_after (nodes model) ∅)
              (g_nodes (graph_after_edges (edges model)
                          (graph_after_nodes (nodes model) empty_graph))))
    as (e & Hraise & Hcases).
  { exists (edge_from ed). split.
    - apply elem_of_graph_after_edges. right. exists ed. by split; [|left].
    - apply colors_after_None. by split; [apply lookup_empty|]. }
  exists e. split; [by apply visualization_page_raises|].
  destruct Hcases as [(k & -> & Hk & Hnone)|(Hclass & n & c & _ & Hc & Hbad)].
  - left. exists k. split; [done|].
    apply colors_after_None in Hnone as [_ Hnot]. split; [done|].
    apply elem_of_graph_after_edges in Hk as [Hk|Hk]; [|done].
    apply elem_of_graph_after_nodes in Hk as [Hk|Hk]; [|done].
    by apply elem_of_nil in Hk.
  - right. split; [done|].
    apply colors_after_Some in Hc as [Hc|(n' & Hn' & _ & <-)].
    + by rewrite lookup_empty in Hc.
    + by exists n'.
Qed.

Lemma dangling_source_aborts_with_KeyError_witness :
  ∃ e, visualization_page (fun _ => false) dangling_model = Raise e
       ∧ ((∃ k, e = KeyError k
                ∧ (k ∉ node_names dangling_model)
                ∧ (∃ ed, ed ∈ edges dangling_model
                         ∧ (k = edge_from ed ∨ k = edge_to ed)))
          ∨ (exn_class e = "ValueError"
             ∧ ∃ n, n ∈ nodes dangling_model
                    ∧ is_color (fun _ => false) (node_color n) = false)).
Proof.
  apply (dangling_source_aborts_with_KeyError (fun _ => false) dangling_model).
  exists (mkEdge "Ghost" "Customer" "HAUNTS" []). split.
  - apply list_elem_of_here.
  - apply (bool_decide_unpack _). vm_compute. exact I.
Defined.

(** * Edge labels *)

(** C10: the six (source, target) pairs of the static registry are pairwise
    distinct, so the label table handed to the edge-label drawing call of the
    Visualization page has one entry per edge type, six in all, and maps each
    pair to the relationship of its edge type. *)
Theorem static_edge_labels_retained (named_color : string → bool) :
  NoDup (map endpoints (edges graph_model))
  ∧ ∃ elems fig G labels,
      visualization_page named_color graph_model = Ok elems
      ∧ Pyplot fig ∈ elems
      ∧ DrawEdgeLabels G labels ∈ fig
      ∧ size labels = length (edges graph_model)
      ∧ size labels = 6%nat
      ∧ Forall (fun e => labels !! endpoints e = Some (edge_relationship e))
               (edges graph_model).
Proof.
  assert (Hnd : NoDup (map endpoints (edges graph_model))).
  { apply (bool_decide_unpack _). by vm_compute. }
  split; [done|].
  eexists _, _, _, (labels_after (edges graph_model) ∅).
  split.
  { apply (visualization_page_ok named_color graph_model
             [ DrawNodes ["Customer"] "#60a5fa" 3000;
               DrawNodes ["Restaurant"] "#f472b6" 3000;
               DrawNodes ["Dish"] "#fbbf24" 3000;
               DrawNodes ["DeliveryPerson"] "#34d399" 3000;
               DrawNodes ["Order"] "#a78bfa" 3000 ]);
      [vm_compute|]; reflexivity. }
  split; [apply list_elem_of_further, list_elem_of_here|].
  split.
  { apply elem_of_app. right. apply elem_of_app. right.
    apply list_elem_of_further, list_elem_of_further, list_elem_of_here. }
  assert (Hsize : size (labels_after (edges graph_model) ∅)
                  = length (edges graph_model)).
  { rewrite labels_after_size; [by rewrite map_size_empty|done|].
    intros; apply lookup_empty. }
  split; [done|]. split; [by rewrite Hsize|].
  apply Forall_forall. intros e He. by apply labels_after_lookup.
Qed.


(** * The Queries page *)

Section QueriesPage.

(** Reading an option back gives the position it was built from. *)
Lemma query_idx_of_option (i : nat) (q : QueryExample) :
  query_idx_of (query_option_of i q) = Ok (Z.of_nat i).
Proof.
  unfold query_idx_of, query_option_of.
  replace (Z.of_nat i + 1) with (Z.pos (Pos.of_succ_nat i)) by lia.
  rewrite str_int_pos.
  change (". " ++ q_title q) with (String "." (" " ++ q_title q)).
  rewrite split_uint, getitem_head. cbn [mbind result_bind].
  rewrite <- str_int_pos, int_of_str_pos. cbn [mbind result_bind mret result_ret].
  f_equal. lia.
Qed.

Lemma queries_page_option (i : nat) (q : QueryExample) :
  queries !! i = Some q →
  queries_page (query_option_of i q)
  = Ok [ Markdown (sub_header "🔍 Graph Queries");
         Selectbox "Select a query to view:" (query_options queries);
         Markdown ("### " ++ q_title q);
         Markdown ("*" ++ q_description q ++ "*");
         Markdown "#### 💻 LanceGraph Query:";
         Code (q_query q) "cypher";
         Markdown "#### 📊 Sample Result:";
         Dataframe (q_result q);
         DownloadButton "📥 Download Result as CSV" (to_csv (q_result q))
           ("query_" ++ str_int (Z.of_nat i + 1) ++ "_result.csv") "text/csv" ].
Proof.
  intros Hq. unfold queries_page.
  rewrite query_idx_of_option. cbn [mbind result_bind].
  rewrite (getitem_lookup _ _ _ Hq). reflexivity.
Qed.

End QueriesPage.

(** C9: every option the select box of the Queries page offers reads back,
    through the text before its first dot, as an index inside the query list,
    and the query at that index is the one whose title the option shows. *)
Theorem selector_option_index_valid (query_option : string) :
  query_option ∈ query_options queries →
  ∃ idx q,
    query_idx_of query_option = Ok idx
    ∧ 0 ≤ idx < Z.of_nat (length queries)
    ∧ getitem queries idx = Ok q
    ∧ query_option = str_int (idx + 1) ++ ". " ++ q_title q
    ∧ query_options queries !! Z.to_nat idx = Some query_option.
Proof.
  intros Hin. unfold query_options in *.
  apply elem_of_lookup_imap in Hin as (i & q & -> & Hq).
  exists (Z.of_nat i), q.
  split; [apply query_idx_of_option|].
  split; [apply lookup_lt_Some in Hq; lia|].
  split; [by apply getitem_lookup|].
  split; [done|].
  rewrite Nat2Z.id, list_lookup_imap, Hq. done.
Qed.

Lemma selector_option_index_valid_witness :
  ∃ idx q,
    query_idx_of "3. Track order delivery chain" = Ok idx
    ∧ 0 ≤ idx < Z.of_nat (length queries)
    ∧ getitem queries idx = Ok q
    ∧ "3. Track order delivery chain" = str_int (idx + 1) ++ ". " ++ q_title q
    ∧ query_options queries !! Z.to_nat idx
      = Some "3. Track order delivery chain".
Proof.
  apply (selector_option_index_valid "3. Track order delivery chain").
  apply (bool_decide_unpack _). vm_compute. exact I.
Defined.

(** C6: for each of the six options of the select box, in order, the
    download button of the Queries page is named query_<i>_result.csv with
    the 1-based number [i] of the query, has MIME type text/csv, and carries
    the CSV text of that query's table: the first line is the column names
    joined by commas, every further line the plain text of one row's cells
    joined by commas, and the text ends with a line feed. *)
Theorem download_exports_selected_table :
  query_options queries
  = [ "1. Find all orders by a customer";
      "2. Find dishes from a restaurant";
      "3. Track order delivery chain";
      "4. Find highly rated restaurants";
      "5. Delivery person performance";
      "6. Customer preferences" ]
  ∧ map (fun query_option => page_download (queries_page query_option))
      (query_options queries)
    = [ Some ("query_1_result.csv", "text/csv",
              [ "customer,order_id,amount,status";
                "Alice,ORD001,450,delivered";
                "Alice,ORD005,320,in_transit";
                "" ]);
        Some ("query_2_result.csv", "text/csv",
              [ "restaurant,dish,price,category";
                "Spice Garden,Butter Chicken,280,Main Course";
                "Spice Garden,Paneer Tikka,220,Appetizer";
                "" ]);
        Some ("query_3_result.csv", "text/csv",
              [ "customer,restaurant,dish,delivery_person,status";
                "Alice,Spice Garden,Butter Chicken,Raj,delivered";
                "" ]);
        Some ("query_4_result.csv", "text/csv",
              [ "restaurant,cuisine,avg_rating";
                "Spice Garden,Indian,4.7";
                "Pizza Paradise,Italian,4.6";
                "" ]);
        Some ("query_5_result.csv", "text/csv",
              [ "delivery_person,total_deliveries,avg_delivery_time";
                "Raj,15,28 mins";
                "" ]);
        Some ("query_6_result.csv", "text/csv",
              [ "category,count";
                "Main Course,8";
                "Dessert,5";
                "Appetizer,3";
                "" ]) ].
Proof.
  split; [reflexivity|].
  unfold query_options, queries. cbn [imap map].
  rewrite !queries_page_option by reflexivity.
  vm_compute. reflexivity.
Qed.

(** * Reading the export back *)

Section CsvRoundTrip.

Implicit Types (f fld rest : string) (rec fields : list string).
Implicit Types (acc : list (list string)) (c : ascii).

Lemma append_assoc (a b t : string) : (a ++ b) ++ t = a ++ (b ++ t).
Proof. induction a; [done|]. rewrite !append_String. by f_equal. Qed.

Lemma append_nil_r (a : string) : a ++ "" = a.
Proof. induction a; [done|]. rewrite append_String. by f_equal. Qed.

Lemma snoc_char_append fld c f : snoc_char fld c ++ f = fld ++ String c f.
Proof. unfold snoc_char. by rewrite append_assoc. Qed.

Lemma needs_quote_char_false c :
  needs_quote_char c = false →
  is_comma c = false ∧ is_quote c = false ∧ is_line_feed c = false.
Proof.
  unfold needs_quote_char. intros H.
  apply orb_false_elim in H as [H Hb]. apply orb_false_elim in H as [Hc Hq].
  done.
Qed.

Lemma is_quote_true c : is_quote c = true → c = ascii_of_nat 34.
Proof.
  unfold is_quote. intros H. apply Nat.eqb_eq in H.
  by rewrite <- H, ascii_nat_embedding.
Qed.

(** An unquoted field without a carriage return is read character by
    character. *)
Lemma read_in_field f fld rec acc rest :
  needs_quote f = false →
  has_carriage_return f = false →
  read_records InField fld rec acc (f ++ rest)
  = read_records InField (fld ++ f) rec acc rest.
Proof.
  revert fld. induction f as [|c f IH]; intros fld Hplain Hcr.
  - by rewrite append_nil_r.
  - cbn [needs_quote] in Hplain. apply orb_false_elim in Hplain as [Hc Hf].
    cbn [has_carriage_return] in Hcr. apply orb_false_elim in Hcr as [Hr Hcr].
    apply needs_quote_char_false in Hc as (Hcomma & _ & Hlf).
    rewrite append_String. cbn [read_records]. unfold is_break.
    rewrite Hlf, Hr, Hcomma. cbn [orb].
    rewrite IH by done. by rewrite snoc_char_append.
Qed.

(** A quoted field is read up to its closing quote, doubled quotes giving
    one quote each. *)
Lemma read_in_quoted f fld rec acc rest :
  read_records InQuoted fld rec acc (double_quotes f ++ dq ++ rest)
  = read_records QuoteInQuoted (fld ++ f) rec acc rest.
Proof.
  revert fld. induction f as [|c f IH]; intros fld.
  - by rewrite append_nil_r.
  - cbn [double_quotes]. destruct (is_quote c) eqn:Hq.
    + apply is_quote_true in Hq as ->.
      change ((dq ++ dq ++ double_quotes f) ++ dq ++ rest)
        with (String (ascii_of_nat 34)
                (String (ascii_of_nat 34) ((double_quotes f) ++ dq ++ rest))).
      cbn [read_records]. change (is_quote (ascii_of_nat 34)) with true.
      cbn iota. rewrite IH. by rewrite snoc_char_append.
    + rewrite append_String. cbn [read_records]. rewrite Hq.
      rewrite IH. by rewrite snoc_char_append.
Qed.

Lemma read_field f rec acc (t : ascii) rest :
  has_carriage_return f = false →
  t = "," %char ∨ t = ascii_of_nat 10 →
  read_records StartField "" rec acc (quote_field f ++ String t rest)
  = end_field f rec acc t rest.
Proof.
  intros Hcr Ht. unfold quote_field, end_field.
  destruct (needs_quote f) eqn:Hn.
  - change ((dq ++ double_quotes f ++ dq) ++ String t rest)
      with (String (ascii_of_nat 34) ((double_quotes f ++ dq) ++ String t rest)).
    cbn [read_records].
    change (is_break (ascii_of_nat 34)) with false.
    change (is_quote (ascii_of_nat 34)) with true. cbn iota.
    rewrite append_assoc.
    change (dq ++ String t rest) with (dq ++ (String t rest)).
    rewrite read_in_quoted. by destruct Ht as [-> | ->].
  - destruct f as [|c f].
    + by destruct Ht as [-> | ->].
    + cbn [needs_quote] in Hn. apply orb_false_elim in Hn as [Hc Hf].
      cbn [has_carriage_return] in Hcr.
      apply orb_false_elim in Hcr as [Hr Hcr].
      apply needs_quote_char_false in Hc as (Hcomma & Hquote & Hlf).
      rewrite append_String. cbn [read_records]. unfold is_break at 1.
      rewrite Hlf, Hr, Hquote, Hcomma. cbn [orb].
      rewrite read_in_field by done. by destruct Ht as [-> | ->].
Qed.

(** The fields of one line, delimiter by delimiter. *)
Lemma read_joined fields rec acc rest :
  Forall (fun f => has_carriage_return f = false) fields →
  fields ≠ [] →
  read_records StartField "" rec acc
    (join "," (map quote_field fields) ++ nl ++ rest)
  = read_records StartRecord "" [] (acc ++ [rec ++ fields])%list rest.
Proof.
  intros Hcr. revert rec.
  induction Hcr as [|f fs Hf Hfs IH]; intros rec Hne; [done|].
  destruct fs as [|f2 fs].
  - cbn [map join]. change (nl ++ rest) with (String (ascii_of_nat 10) rest).
    rewrite read_field by (done || by right). reflexivity.
  - change (join "," (map quote_field (f :: f2 :: fs)))
      with (quote_field f ++ "," ++ join "," (map quote_field (f2 :: fs))).
    rewrite !append_assoc.
    change ("," ++ join "," (map quote_field (f2 :: fs)) ++ nl ++ rest)
      with (String ","%char (join "," (map quote_field (f2 :: fs)) ++ nl ++ rest)).
    rewrite read_field by (done || by left). unfold end_field.
    change (is_break ","%char) with false. cbn iota.
    rewrite IH by done. by rewrite <- app_assoc.
Qed.

(** At the start of a record the reader behaves as at the start of a field,
    unless the line is blank. *)
Lemma start_record_as_field c rest acc :
  is_break c = false →
  read_records StartRecord "" [] acc (String c rest)
  = read_records StartField "" [] acc (String c rest).
Proof. intros Hb. cbn [read_records]. by rewrite Hb. Qed.

Lemma joined_head fields rest :
  Forall (fun f => has_carriage_return f = false) fields →
  fields ≠ [] → fields ≠ [""] →
  ∃ c r, join "," (map quote_field fields) ++ nl ++ rest = String c r
         ∧ is_break c = false.
Proof.
  intros Hcr Hne Hblank. destruct fields as [|f fs]; [done|].
  apply Forall_cons in Hcr as [Hf _].
  assert (Hhead : ∀ t, f ≠ "" →
            ∃ c r, quote_field f ++ t = String c r ∧ is_break c = false).
  { intros t Hf0. unfold quote_field. destruct (needs_quote f) eqn:Hn.
    - by eexists _, _.
    - destruct f as [|c f]; [done|]. cbn [needs_quote] in Hn.
      apply orb_false_elim in Hn as [Hc _].
      cbn [has_carriage_return] in Hf. apply orb_false_elim in Hf as [Hr _].
      apply needs_quote_char_false in Hc as (_ & _ & Hlf).
      exists c, (f ++ t). rewrite append_String. split; [done|].
      unfold is_break. by rewrite Hlf, Hr. }
  destruct fs as [|f2 fs].
  - cbn [map join]. apply Hhead. by intros ->.
  - change (join "," (map quote_field (f :: f2 :: fs)))
      with (quote_field f ++ "," ++ join "," (map quote_field (f2 :: fs))).
    rewrite append_assoc. destruct (decide (f = "")) as [->|Hf0].
    + by eexists _, _.
    + by apply Hhead.
Qed.

(** One written line reads back as one record. *)
Lemma read_csv_line fields acc rest :
  Forall (fun f => has_carriage_return f = false) fields →
  fields ≠ [] →
  read_records StartRecord "" [] acc (csv_line fields ++ rest)
  = read_records StartRecord "" [] (acc ++ [fields])%list rest.
Proof.
  intros Hcr Hne. destruct (decide (fields = [""])) as [->|Hblank]; [done|].
  assert (Hline : csv_line fields = join "," (map quote_field fields) ++ nl).
  { destruct fields as [|[|c f] [|f2 fs]]; done. }
  rewrite Hline, append_assoc.
  destruct (joined_head fields rest Hcr Hne Hblank) as (c & r & Heq & Hb).
  rewrite Heq, start_record_as_field by done. rewrite <- Heq.
  by rewrite read_joined.
Qed.

Lemma read_csv_lines (ls : list (list string)) acc :
  Forall (fun fields =>
            fields ≠ [] ∧ Forall (fun f => has_carriage_return f = false) fields)
    ls →
  read_records StartRecord "" [] acc (foldr String.append "" (map csv_line ls))
  = Some (acc ++ ls)%list.
Proof.
  intros Hls. revert acc.
  induction Hls as [|fields ls [Hne Hcr] _ IH]; intros acc.
  - simpl. by rewrite app_nil_r.
  - cbn [map foldr]. rewrite read_csv_line by done.
    rewrite IH. by rewrite <- app_assoc.
Qed.

End CsvRoundTrip.

(** C5: for every query of the list, in order, the CSV text of its result
    table reads back as a table with the column names of that table, in
    their order, and, row by row, the text of its cell values. *)
Theorem export_round_trip :
  map (fun q => read_csv (to_csv (q_result q))) queries
  = [ Some ([ "customer"; "order_id"; "amount"; "status" ],
            [ [ "Alice"; "ORD001"; "450"; "delivered" ];
              [ "Alice"; "ORD005"; "320"; "in_transit" ] ]);
      Some ([ "restaurant"; "dish"; "price"; "category" ],
            [ [ "Spice Garden"; "Butter Chicken"; "280"; "Main Course" ];
              [ "Spice Garden"; "Paneer Tikka"; "220"; "Appetizer" ] ]);
      Some ([ "customer"; "restaurant"; "dish"; "delivery_person"; "status" ],
            [ [ "Alice"; "Spice Garden"; "Butter Chicken"; "Raj"; "delivered" ] ]);
      Some ([ "restaurant"; "cuisine"; "avg_rating" ],
            [ [ "Spice Garden"; "Indian"; "4.7" ];
              [ "Pizza Paradise"; "Italian"; "4.6" ] ]);
      Some ([ "delivery_person"; "total_deliveries"; "avg_delivery_time" ],
            [ [ "Raj"; "15"; "28 mins" ] ]);
      Some ([ "category"; "count" ],
            [ [ "Main Course"; "8" ];
              [ "Dessert"; "5" ];
              [ "Appetizer"; "3" ] ]) ].
Proof. vm_compute. reflexivity. Qed.

(** * Outcomes of the Visualization page *)

Section VisualizationOutcomes.

Implicit Types (G : DiGraph) (ns : list NodeType) (es : list EdgeType).
Implicit Types (P : string → bool).

Lemma find_snoc P (l : list string) (n : string) :
  List.find P (l ++ [n])
  = match List.find P l with
    | Some x => Some x
    | None => if P n then Some n else None
    end.
Proof.
  induction l as [|x l IH]; simpl; [done|]. by destruct (P x).
Qed.

Lemma find_all_false P (l : list string) :
  (∀ x, x ∈ l → P x = false) → List.find P l = None.
Proof.
  induction l as [|x l IH]; intros Hall; simpl; [done|].
  rewrite (Hall x) by (by left). apply IH. intros y Hy. apply Hall. by right.
Qed.

Lemma find_pointwise P (Q : string → bool) (l : list string) :
  (∀ x, P x = Q x) → List.find P l = List.find Q l.
Proof.
  intros Heq. induction l as [|x l IH]; simpl; [done|]. by rewrite Heq, IH.
Qed.

Lemma find_add_node P G (n : string) :
  List.find P (g_nodes (add_node G n))
  = match List.find P (g_nodes G) with
    | Some x => Some x
    | None => if P n then Some n else None
    end.
Proof.
  unfold add_node. case_decide as Hin; simpl; [|apply find_snoc].
  destruct (List.find P (g_nodes G)) eqn:Hfind; [done|].
  apply list_elem_of_In in Hin.
  by rewrite (find_none _ _ Hfind _ Hin).
Qed.

Lemma find_add_edge P G (u v : string) :
  List.find P (g_nodes (add_edge G u v))
  = match List.find P (g_nodes G) with
    | Some x => Some x
    | None => List.find P [u; v]
    end.
Proof.
  assert (Hnodes : g_nodes (add_edge G u v)
                   = g_nodes (add_node (add_node G u) v)).
  { unfold add_edge. by case_decide. }
  rewrite Hnodes, !find_add_node. simpl.
  destruct (List.find P (g_nodes G)); [done|]. by destruct (P u).
Qed.

(** The first vertex with property [P]: one the graph already had, or else
    the first such edge end. *)
Lemma find_graph_after_edges P es G :
  List.find P (g_nodes (graph_after_edges es G))
  = match List.find P (g_nodes G) with
    | Some x => Some x
    | None => List.find P (edge_ends es)
    end.
Proof.
  revert G. induction es as [|e es IH]; intros G.
  - simpl. by destruct (List.find P (g_nodes G)).
  - change (graph_after_edges (e :: es) G)
      with (graph_after_edges es (add_edge G (edge_from e) (edge_to e))).
    rewrite IH, find_add_edge. simpl.
    destruct (List.find P (g_nodes G)); [done|].
    destruct (P (edge_from e)); [done|]. by destruct (P (edge_to e)).
Qed.

(** With accepted colours throughout, the drawing loop fails at the first
    vertex that has no colour. *)
Lemma draw_nodes_first named_color (colors : gmap string string)
    (vs : list string) (k : string) :
  (∀ n c, colors !! n = Some c → is_color named_color c = true) →
  List.find (fun n => bool_decide (colors !! n = None)) vs = Some k →
  draw_nodes named_color colors vs = Raise (KeyError k).
Proof.
  intros Hvalid. induction vs as [|v vs IH]; simpl; [done|].
  unfold lookup_color, check_color. case_bool_decide as Hv.
  - intros [= ->]. by rewrite Hv.
  - intros Hfind. destruct (colors !! v) as [c|] eqn:Hc; [|done].
    cbn [mbind result_bind]. rewrite (Hvalid v c Hc).
    cbn [mbind result_bind]. by rewrite IH.
Qed.

Lemma first_uncoloured_vertex model :
  List.find (fun n => bool_decide (colors_after (nodes model) ∅ !! n = None))
    (g_nodes (graph_after_edges (edges model)
                (graph_after_nodes (nodes model) empty_graph)))
  = first_unresolved model.
Proof.
  rewrite (find_pointwise _ (unresolved model)).
  - rewrite find_graph_after_edges, find_all_false; [done|].
    intros x Hx. apply elem_of_graph_after_nodes in Hx as [Hx|Hx].
    + by apply elem_of_nil in Hx.
    + unfold unresolved. apply bool_decide_eq_false. by intros Hnot.
  - intros x. unfold unresolved. apply bool_decide_ext.
    rewrite colors_after_None, lookup_empty. unfold node_names. tauto.
Qed.

Lemma first_unresolved_None model :
  first_unresolved model = None ↔ Forall (edge_resolved model) (edges model).
Proof.
  unfold first_unresolved, edge_resolved. rewrite Forall_forall. split.
  - intros Hnone e He.
    assert (Hends : ∀ n, n ∈ [edge_from e; edge_to e] → n ∈ node_names model).
    { intros n Hn.
      assert (Hin : In n (edge_ends (edges model))).
      { apply in_flat_map. exists e. by rewrite <- !list_elem_of_In. }
      pose proof (find_none _ _ Hnone _ Hin) as Hfalse.
      unfold unresolved in Hfalse. apply bool_decide_eq_false in Hfalse.
      by apply dec_stable. }
    split; apply Hends; [by left|by right; left].
  - intros Hres. apply find_all_false. intros n Hn.
    apply list_elem_of_In, in_flat_map in Hn as (e & He & Hn).
    apply list_elem_of_In in He, Hn. destruct (Hres e He) as [Hf Ht].
    unfold unresolved. apply bool_decide_eq_false. intros Hnot. apply Hnot.
    apply elem_of_cons in Hn as [->|Hn]; [done|].
    apply elem_of_cons in Hn as [->|Hn]; [done|]. by apply elem_of_nil in Hn.
Qed.

End VisualizationOutcomes.

(** X1: when every node type has a colour matplotlib accepts, an edge end,
    source or target, that names no node type aborts the Visualization page
    with KeyError, and the key is the first such end in the order of the
    edge list, the source of an edge before its target. *)
Theorem unresolved_end_raises_first (named_color : string → bool)
    (model : GraphModel) (k : string) :
  colors_accepted named_color model →
  first_unresolved model = Some k →
  visualization_page named_color model = Raise (KeyError k).
Proof.
  intros Hcolors Hk. apply visualization_page_raises, draw_nodes_first.
  - intros n c Hc. apply colors_after_Some in Hc as [Hc|(n' & Hn' & _ & <-)].
    + by rewrite lookup_empty in Hc.
    + unfold colors_accepted in Hcolors. rewrite Forall_forall in Hcolors.
      by apply Hcolors.
  - by rewrite first_uncoloured_vertex.
Qed.

Lemma unresolved_end_raises_first_witness :
  visualization_page (fun _ => false)
    (mkModel [ mkNode "Customer" [] "#60a5fa" "c" ]
             [ mkEdge "Customer" "Order" "PLACES" [];
               mkEdge "Ghost" "Customer" "HAUNTS" [] ])
  = Raise (KeyError "Order").
Proof.
  apply (unresolved_end_raises_first (fun _ => false)
           (mkModel [ mkNode "Customer" [] "#60a5fa" "c" ]
                    [ mkEdge "Customer" "Order" "PLACES" [];
                      mkEdge "Ghost" "Customer" "HAUNTS" [] ]) "Order").
  - apply Forall_cons. split; [vm_compute; reflexivity|apply Forall_nil_2].
  - vm_compute. reflexivity.
Defined.

(** * Indexing outside the list *)

Section ListBounds.

Implicit Types (G : DiGraph) (ns : list NodeType) (es : list EdgeType).

(** Indexing outside [-len, len) raises IndexError. *)
Lemma getitem_out_of_range {A} (l : list A) (i : Z) :
  i < - Z.of_nat (length l) ∨ Z.of_nat (length l) ≤ i →
  getitem l i = Raise IndexError.
Proof.
  intros Hout. unfold getitem. cbv zeta.
  destruct (Z.ltb_spec i 0) as [Hneg|Hpos]; cbv iota.
  - destruct (Z.ltb_spec (Z.of_nat (length l) + i) 0); [done|lia].
  - destruct (Z.ltb_spec i 0); [lia|].
    destruct (Z.leb_spec (Z.of_nat (length l)) i); [done|lia].
Qed.

(** A negative index inside the bounds counts from the end. *)
Lemma getitem_negative {A} (l : list A) (i : Z) (x : A) :
  - Z.of_nat (length l) ≤ i < 0 →
  l !! Z.to_nat (Z.of_nat (length l) + i) = Some x →
  getitem l i = Ok x.
Proof.
  intros Hin Hx. unfold getitem. cbv zeta.
  destruct (Z.ltb_spec i 0) as [Hneg|Hpos]; [|lia]. cbv iota.
  destruct (Z.ltb_spec (Z.of_nat (length l) + i) 0); [lia|].
  destruct (Z.leb_spec (Z.of_nat (length l)) (Z.of_nat (length l) + i)); [lia|].
  cbn [orb]. by rewrite Hx.
Qed.

End ListBounds.


(** * The graph and its tables, for any registry *)

Section GraphInvariants.

Implicit Types (G : DiGraph) (ns : list NodeType) (es : list EdgeType).
Implicit Types (labels : gmap (string * string) string).

Lemma g_edges_add_node G (n : string) : g_edges (add_node G n) = g_edges G.
Proof. unfold add_node. by case_decide. Qed.

Lemma NoDup_add_node G (n : string) :
  NoDup (g_nodes G) → NoDup (g_nodes (add_node G n)).
Proof.
  intros Hnd. unfold add_node. case_decide as Hin; [done|]. simpl.
  apply NoDup_app. split; [done|]. split; [|apply NoDup_singleton].
  intros x Hx Hx'. apply list_elem_of_singleton in Hx' as ->. done.
Qed.

Lemma NoDup_add_edge G (u v : string) :
  NoDup (g_nodes G) → NoDup (g_nodes (add_edge G u v)).
Proof.
  intros Hnd. unfold add_edge. case_decide; simpl; by do 2 apply NoDup_add_node.
Qed.

Lemma NoDup_graph_after_nodes ns G :
  NoDup (g_nodes G) → NoDup (g_nodes (graph_after_nodes ns G)).
Proof.
  revert G. induction ns as [|n ns IH]; intros G Hnd; [done|].
  apply (IH (add_node G (node_type n))). by apply NoDup_add_node.
Qed.

Lemma NoDup_graph_after_edges es G :
  NoDup (g_nodes G) → NoDup (g_nodes (graph_after_edges es G)).
Proof.
  revert G. induction es as [|e es IH]; intros G Hnd; [done|].
  apply (IH (add_edge G (edge_from e) (edge_to e))). by apply NoDup_add_edge.
Qed.

Lemma g_edges_graph_after_nodes ns G :
  g_edges (graph_after_nodes ns G) = g_edges G.
Proof.
  revert G. induction ns as [|n ns IH]; intros G; [done|].
  change (graph_after_nodes (n :: ns) G)
    with (graph_after_nodes ns (add_node G (node_type n))).
  by rewrite IH, g_edges_add_node.
Qed.

Lemma arcs_match_labels_step G labels (e : EdgeType) :
  arcs_match_labels G labels →
  arcs_match_labels (add_edge G (edge_from e) (edge_to e))
    (<[endpoints e := edge_relationship e]> labels).
Proof.
  intros [Hnd Hkeys]. unfold arcs_match_labels, add_edge, endpoints.
  rewrite !g_edges_add_node. case_decide as Hin; simpl.
  - rewrite ?g_edges_add_node. split; [done|]. intros p.
    rewrite lookup_insert_is_Some, <- Hkeys.
    split; [intros Hp; destruct (decide ((edge_from e, edge_to e) = p)); auto|].
    by intros [<- | [_ Hp]].
  - rewrite ?g_edges_add_node. split.
    + apply NoDup_app. split; [done|]. split; [|apply NoDup_singleton].
      intros x Hx Hx'. apply list_elem_of_singleton in Hx' as ->. done.
    + intros p. rewrite elem_of_app, list_elem_of_singleton.
      rewrite lookup_insert_is_Some, <- Hkeys.
      split.
      * intros [Hp| ->]; [|by left].
        destruct (decide ((edge_from e, edge_to e) = p)); auto.
      * intros [<- | [_ Hp]]; auto.
Qed.

Lemma arcs_match_labels_after es G labels :
  arcs_match_labels G labels →
  arcs_match_labels (graph_after_edges es G) (labels_after es labels).
Proof.
  revert G labels. induction es as [|e es IH]; intros G labels Hinv; [done|].
  apply (IH (add_edge G (edge_from e) (edge_to e))
            (<[endpoints e := edge_relationship e]> labels)).
  by apply arcs_match_labels_step.
Qed.

Lemma labels_after_app es1 es2 labels :
  labels_after (es1 ++ es2) labels = labels_after es2 (labels_after es1 labels).
Proof. unfold labels_after. by rewrite foldl_app. Qed.

Lemma elem_of_edge_ends (x : string) es :
  x ∈ edge_ends es ↔ ∃ e, e ∈ es ∧ (x = edge_from e ∨ x = edge_to e).
Proof.
  unfold edge_ends. rewrite list_elem_of_In, in_flat_map. split.
  - intros (e & He & Hx). exists e.
    apply list_elem_of_In in He. apply list_elem_of_In in Hx.
    split; [done|].
    apply elem_of_cons in Hx as [->|Hx]; [by left|].
    apply elem_of_cons in Hx as [->|Hx]; [by right|].
    by apply elem_of_nil in Hx.
  - intros (e & He & Hx). exists e. rewrite <- !list_elem_of_In.
    split; [done|]. destruct Hx as [->| ->]; [by left|by right; left].
Qed.

End GraphInvariants.

(** X4: when the node-type names are pairwise distinct and every edge end
    names a node type, the vertices of the graph handed to the layout are
    exactly the node-type names, in registry order. *)
Theorem vertices_are_node_names (model : GraphModel) :
  NoDup (node_names model) →
  Forall (edge_resolved model) (edges model) →
  g_nodes (graph_of model) = node_names model.
Proof.
  intros Hnd Hres. unfold graph_of. rewrite build_graph_split.
  by apply graph_vertices_are_node_names.
Qed.

Lemma vertices_are_node_names_witness :
  g_nodes (graph_of graph_model) = node_names graph_model.
Proof.
  apply (vertices_are_node_names graph_model).
  - apply (bool_decide_unpack _). vm_compute. exact I.
  - apply (bool_decide_unpack _). vm_compute. exact I.
Defined.

(** X5: for every registry the graph holds no vertex and no arc twice, and
    its vertices are the node-type names together with the edge ends: an
    unknown edge end is added as a vertex, never dropped. *)
Theorem graph_vertices_characterised (model : GraphModel) :
  NoDup (g_nodes (graph_of model))
  ∧ NoDup (g_edges (graph_of model))
  ∧ ∀ x, x ∈ g_nodes (graph_of model)
         ↔ x ∈ node_names model ∨ x ∈ edge_ends (edges model).
Proof.
  unfold graph_of. rewrite build_graph_split. cbn [fst].
  split; [|split].
  - apply NoDup_graph_after_edges, NoDup_graph_after_nodes. constructor.
  - apply (arcs_match_labels_after (edges model) _ ∅).
    split.
    + rewrite g_edges_graph_after_nodes. constructor.
    + intros p. rewrite g_edges_graph_after_nodes, lookup_empty. split.
      * by intros ?%elem_of_nil.
      * by intros [? ?].
  - intros x. rewrite elem_of_graph_after_edges, elem_of_graph_after_nodes.
    rewrite elem_of_edge_ends, elem_of_nil. unfold node_names. tauto.
Qed.

(** X6: the label table is keyed by the (source, target) pair, so of several
    edge types on the same pair the last one in the list gives the label. *)
Theorem last_edge_on_a_pair_gives_the_label (model : GraphModel)
    (es1 es2 : list EdgeType) (e : EdgeType) :
  edges model = (es1 ++ e :: es2)%list →
  (∀ e', e' ∈ es2 → endpoints e' ≠ endpoints e) →
  edge_labels_of model !! endpoints e = Some (edge_relationship e).
Proof.
  intros Hedges Hlast. unfold edge_labels_of. rewrite build_graph_split.
  cbn [snd]. rewrite Hedges, labels_after_app.
  change (labels_after (e :: es2) ?l)
    with (labels_after es2 (<[endpoints e := edge_relationship e]> l)).
  rewrite labels_after_lookup_other; [apply lookup_insert_eq|].
  intros Hin. apply list_elem_of_fmap in Hin as (e' & Heq & He').
  by apply (Hlast e' He').
Qed.

Lemma last_edge_on_a_pair_gives_the_label_witness :
  edge_labels_of
    (mkModel [ mkNode "Customer" [] "#60a5fa" "c";
               mkNode "Restaurant" [] "#f472b6" "r" ]
             [ mkEdge "Customer" "Restaurant" "REVIEWS" [];
               mkEdge "Customer" "Restaurant" "VISITS" [] ])
    !! endpoints (mkEdge "Customer" "Restaurant" "VISITS" [])
  = Some (edge_relationship (mkEdge "Customer" "Restaurant" "VISITS" [])).
Proof.
  apply (last_edge_on_a_pair_gives_the_label
           (mkModel [ mkNode "Customer" [] "#60a5fa" "c";
                      mkNode "Restaurant" [] "#f472b6" "r" ]
                    [ mkEdge "Customer" "Restaurant" "REVIEWS" [];
                      mkEdge "Customer" "Restaurant" "VISITS" [] ])
           [ mkEdge "Customer" "Restaurant" "REVIEWS" [] ] []).
  - reflexivity.
  - intros e' He'. by apply elem_of_nil in He'.
Defined.

(** X7: for every registry the label table has exactly one entry per arc of
    the graph: its keys are the arcs, and their number is the number of
    arcs, which can be smaller than the number of edge types. *)
Theorem one_label_per_arc (model : GraphModel) :
  size (edge_labels_of model) = length (g_edges (graph_of model))
  ∧ ∀ p, p ∈ g_edges (graph_of model) ↔ is_Some (edge_labels_of model !! p).
Proof.
  assert (Hinv : arcs_match_labels (graph_of model) (edge_labels_of model)).
  { unfold graph_of, edge_labels_of. rewrite build_graph_split. cbn [fst snd].
    apply arcs_match_labels_after. split.
    - rewrite g_edges_graph_after_nodes. constructor.
    - intros p. rewrite g_edges_graph_after_nodes, lookup_empty. split.
      + by intros ?%elem_of_nil.
      + by intros [? ?]. }
  destruct Hinv as [Hnd Hkeys]. split; [|done].
  rewrite <- (size_dom (D := gset (string * string))).
  rewrite <- (size_list_to_set (C := gset (string * string))) by done.
  f_equal. apply set_eq. intros p.
  by rewrite elem_of_dom, elem_of_list_to_set, Hkeys.
Qed.

(** * The Queries page outside the select box *)

Section QueriesEdges.

Lemma split_nonempty (sep : ascii) (s : string) :
  ∃ h t, split sep s = h :: t.
Proof.
  induction s as [|c s (h & t & IH)]; simpl; [by eexists _, _|].
  destruct (Ascii.eqb c sep); [by eexists _, _|]. rewrite IH. by eexists _, _.
Qed.

Lemma int_of_str_raises_ValueError (s : string) (e : exn) :
  int_of_str s = Raise e → exn_class e = "ValueError".
Proof.
  unfold int_of_str. cbv zeta.
  destruct (strip s) as [|c r]; [by intros [= <-]|].
  destruct (Ascii.eqb c "-"); [|destruct (Ascii.eqb c "+")];
    match goal with |- context [int_digits ?t 0 false] =>
      destruct (int_digits t 0 false) end;
    by intros [= <-].
Qed.

Lemma getitem_raises_IndexError {A} (l : list A) (i : Z) (e : exn) :
  getitem l i = Raise e → e = IndexError.
Proof.
  unfold getitem. cbv zeta.
  repeat match goal with
         | |- context [if ?b then _ else _] => destruct b
         | |- context [match ?o with Some _ => _ | None => _ end] => destruct o
         end; by intros [= <-].
Qed.

Lemma query_idx_of_raises_ValueError (query_option : string) (e : exn) :
  query_idx_of query_option = Raise e → exn_class e = "ValueError".
Proof.
  unfold query_idx_of.
  destruct (split_nonempty "." query_option) as (h & t & ->).
  rewrite getitem_head. cbn [mbind result_bind].
  destruct (int_of_str h) eqn:Hint; [done|].
  intros [= <-]. by apply (int_of_str_raises_ValueError h).
Qed.

Lemma queries_page_failure (query_option : string) (e : exn) :
  queries_page query_option = Raise e →
  exn_class e = "ValueError" ∨ e = IndexError.
Proof.
  unfold queries_page.
  destruct (query_idx_of query_option) as [idx|e'] eqn:Hidx.
  - cbn [mbind result_bind].
    destruct (getitem queries idx) as [q|e'] eqn:Hq; [done|].
    intros [= <-]. right. by apply (getitem_raises_IndexError queries idx).
  - intros [= <-]. left. by apply (query_idx_of_raises_ValueError query_option).
Qed.

End QueriesEdges.

(** X8: for any list of queries, whatever their titles, the option at
    position [i] of the select box reads back as the index [i]. *)
Theorem option_reads_back_its_position (qs : list QueryExample) (i : nat)
    (query_option : string) :
  query_options qs !! i = Some query_option →
  query_idx_of query_option = Ok (Z.of_nat i).
Proof.
  unfold query_options. rewrite list_lookup_imap.
  destruct (qs !! i) as [q|]; [|done]. intros [= <-].
  apply query_idx_of_option.
Qed.

Lemma option_reads_back_its_position_witness :
  query_idx_of "2. v1.5 release notes" = Ok (Z.of_nat 1).
Proof.
  apply (option_reads_back_its_position
           [ mkQuery "a.b" "" "" (mkDataFrame []);
             mkQuery "v1.5 release notes" "" "" (mkDataFrame []) ] 1).
  reflexivity.
Defined.

(** X9: for any list of queries the options of the select box are pairwise
    distinct, even when two queries share a title. *)
Theorem query_options_distinct (qs : list QueryExample) :
  NoDup (query_options qs).
Proof.
  apply NoDup_alt. intros i j opt Hi Hj. unfold query_options in *.
  rewrite list_lookup_imap in Hi, Hj.
  destruct (qs !! i) as [qi|]; [|done]. destruct (qs !! j) as [qj|]; [|done].
  injection Hi as <-. injection Hj as Hj.
  pose proof (query_idx_of_option i qi) as Hidx. rewrite <- Hj in Hidx.
  rewrite query_idx_of_option in Hidx. injection Hidx as Hidx. lia.
Qed.

(** X10: whatever text it is given as the selected option, the Queries page
    fails only with ValueError, when the text before the first dot is no
    integer literal, or with IndexError, when the number is out of range. *)
Theorem queries_page_raises_only (query_option : string) (e : exn) :
  queries_page query_option = Raise e →
  exn_class e = "ValueError" ∨ e = IndexError.
Proof. apply queries_page_failure. Qed.

Lemma queries_page_raises_only_witness :
  exn_class (ValueError "invalid literal for int() with base 10: 'first'")
  = "ValueError"
  ∨ ValueError "invalid literal for int() with base 10: 'first'" = IndexError.
Proof.
  apply (queries_page_raises_only "first. query").
  vm_compute. reflexivity.
Defined.

(** X11: an option of at most 4300 characters whose number lies outside the
    list, above its length or below minus its length, makes the Queries page
    raise IndexError.  (On more than 4300 digits [int] raises ValueError.) *)
Theorem out_of_range_option_raises_IndexError (query_option : string)
    (idx : Z) :
  (String.length query_option ≤ 4300)%nat →
  query_idx_of query_option = Ok idx →
  idx < - Z.of_nat (length queries) ∨ Z.of_nat (length queries) ≤ idx →
  queries_page query_option = Raise IndexError.
Proof.
  intros _ Hidx Hout. unfold queries_page. rewrite Hidx.
  cbn [mbind result_bind]. by rewrite getitem_out_of_range.
Qed.

Lemma out_of_range_option_raises_IndexError_witness :
  queries_page "7. beyond the list" = Raise IndexError.
Proof.
  apply (out_of_range_option_raises_IndexError "7. beyond the list" 6).
  - vm_compute. lia.
  - vm_compute. reflexivity.
  - right. simpl. lia.
Defined.

(** X12: an option of at most 4300 characters numbered 0 or below, down to
    one minus the length of the list, does not fail: the index is negative
    and counts from the end of the list, so option 0 shows the last query,
    and the download is named after the number in the option, not after the
    query shown. *)
Theorem nonpositive_option_wraps_around (query_option : string) (idx : Z)
    (q : QueryExample) :
  (String.length query_option ≤ 4300)%nat →
  query_idx_of query_option = Ok idx →
  - Z.of_nat (length queries) ≤ idx < 0 →
  queries !! Z.to_nat (Z.of_nat (length queries) + idx) = Some q →
  ∃ elems,
    queries_page query_option = Ok elems
    ∧ Markdown ("### " ++ q_title q) ∈ elems
    ∧ DownloadButton "📥 Download Result as CSV" (to_csv (q_result q))
        ("query_" ++ str_int (idx + 1) ++ "_result.csv") "text/csv" ∈ elems.
Proof.
  intros _ Hidx Hneg Hq. unfold queries_page. rewrite Hidx.
  cbn [mbind result_bind]. rewrite (getitem_negative queries idx q Hneg Hq).
  eexists. split; [reflexivity|]. split.
  - do 2 apply list_elem_of_further. apply list_elem_of_here.
  - do 8 apply list_elem_of_further. apply list_elem_of_here.
Qed.

Lemma nonpositive_option_wraps_around_witness :
  ∃ q, queries !! 5%nat = Some q
    ∧ ∃ elems,
        queries_page "0. nothing" = Ok elems
        ∧ Markdown ("### " ++ q_title q) ∈ elems
        ∧ DownloadButton "📥 Download Result as CSV" (to_csv (q_result q))
            ("query_" ++ str_int (-1 + 1) ++ "_result.csv") "text/csv" ∈ elems.
Proof.
  eexists. split; [reflexivity|].
  apply (nonpositive_option_wraps_around "0. nothing" (-1)).
  - vm_compute. lia.
  - vm_compute. reflexivity.
  - simpl. lia.
  - reflexivity.
Defined.

(** * Round trips of the text conversions *)

Lemma strip_minus_uint (d : Decimal.uint) :
  strip (String "-" (NilEmpty.string_of_uint d))
  = String "-" (NilEmpty.string_of_uint d).
Proof.
  unfold strip.
  assert (Hl : lstrip (String "-" (NilEmpty.string_of_uint d))
               = String "-" (NilEmpty.string_of_uint d)) by reflexivity.
  assert (Hr : ∀ r, rstrip (String "-" r)
                    = match rstrip r with
                      | EmptyString => String "-" EmptyString
                      | r' => String "-" r'
                      end).
  { intros r. simpl. by destruct (rstrip r). }
  rewrite Hl, Hr, rstrip_uint. by destruct (NilEmpty.string_of_uint d).
Qed.

(** X13: [int(str(n)) == n] for every integer whose text has at most 4300
    characters, negative ones and zero included: the text the script prints
    for an index reads back as it.  (Beyond that length [str] and [int]
    raise ValueError.) *)
Theorem int_of_str_str_int (z : Z) :
  (String.length (str_int z) ≤ 4300)%nat →
  int_of_str (str_int z) = Ok z.
Proof.
  intros _.
  destruct z as [|p|p]; [reflexivity|apply int_of_str_pos|].
  assert (Hstr : str_int (Z.neg p)
                 = String "-" (NilEmpty.string_of_uint (Pos.to_uint p))).
  { unfold str_int; simpl. unfold NilZero.string_of_uint.
    pose proof (DecimalPos.Unsigned.to_uint_nonnil p).
    by destruct (Pos.to_uint p). }
  pose proof (DecimalPos.Unsigned.to_uint_nonnil p) as Hnn.
  pose proof (DecimalPos.Unsigned.of_to p) as Hval.
  pose proof (int_digits_uint (Pos.to_uint p) 0 false (or_introl Hnn)) as Hd.
  rewrite uint_value_0 in Hd. unfold Z.of_uint in Hd. rewrite Hval in Hd.
  simpl in Hd.
  rewrite Hstr. unfold int_of_str. rewrite strip_minus_uint.
  cbn [Ascii.eqb Bool.eqb]. by rewrite Hd.
Qed.

Lemma int_of_str_str_int_witness : int_of_str (str_int (-305)) = Ok (-305).
Proof. apply (int_of_str_str_int (-305)). vm_compute. lia. Defined.

(** X14: joining the parts of a split with the separator gives the text
    back, for every text and separator. *)
Theorem join_split (sep : ascii) (s : string) :
  join (String sep "") (split sep s) = s.
Proof.
  induction s as [|c s IH]; [done|]. simpl.
  destruct (split_nonempty sep s) as (h & t & Hsplit).
  rewrite Hsplit in *. destruct (Ascii.eqb_spec c sep) as [->|Hne].
  - change (join (String sep "") ("" :: h :: t))
      with (String sep (join (String sep "") (h :: t))).
    by rewrite IH.
  - destruct t as [|h2 t].
    + simpl in *. by rewrite IH.
    + change (join (String sep "") (String c h :: h2 :: t))
        with (String c (join (String sep "") (h :: h2 :: t))).
      by rewrite IH.
Qed.

(** * Tables as text *)

Section TableTexts.

Implicit Types (df : DataFrame) (texts : list (list string)).

Lemma column_texts_cells (c : column) :
  map str_scalar (column_cells c) = column_texts c.
Proof.
  destruct c as [vs|vs|vs]; simpl; rewrite map_map; [apply map_id|done|done].
Qed.

(** The texts of row [i] are the [i]-th texts of the columns. *)
Lemma row_texts df (i : nat) :
  map str_scalar (row df i)
  = omap (fun t : list string => t !! i)
      (map (fun col => column_texts (snd col)) (columns df)).
Proof.
  unfold row. induction (columns df) as [|col cols IH]; [done|].
  cbn [omap list_omap map].
  rewrite <- column_texts_cells, list_lookup_fmap.
  destruct (column_cells (snd col) !! i) as [v|]; cbn; by rewrite <- IH.
Qed.

(** Reading equally long columns index by index gives their transpose. *)
Lemma lookup_rows_transpose texts (n : nat) :
  Forall (fun t => length t = n) texts →
  map (fun i => omap (fun t : list string => t !! i) texts) (seq 0 n)
  = match texts with [] => replicate n [] | _ => transpose texts end.
Proof.
  induction 1 as [|c texts Hc Htexts IH].
  - apply list_eq. intros i. rewrite list_lookup_fmap.
    destruct (decide (i < n)%nat) as [Hi|Hi].
    + rewrite lookup_seq_lt, lookup_replicate_2 by done. done.
    + rewrite lookup_seq_ge by lia. symmetry.
      apply lookup_replicate_None. lia.
  - destruct texts as [|c2 texts].
    + cbn [transpose]. apply list_eq. intros i. rewrite !list_lookup_fmap.
      destruct (decide (i < n)%nat) as [Hi|Hi].
      * rewrite lookup_seq_lt by done.
        destruct (lookup_lt_is_Some_2 c i) as [x Hx]; [lia|].
        cbn. by rewrite Hx.
      * rewrite lookup_seq_ge, lookup_ge_None_2 by lia. done.
    + change (transpose (c :: c2 :: texts))
        with (zip_with cons c (transpose (c2 :: texts))).
      rewrite <- IH. apply list_eq. intros i.
      rewrite lookup_zip_with, !list_lookup_fmap.
      destruct (decide (i < n)%nat) as [Hi|Hi].
      * rewrite lookup_seq_lt by done.
        destruct (lookup_lt_is_Some_2 c i) as [x Hx]; [lia|].
        cbn. by rewrite Hx.
      * rewrite lookup_seq_ge, lookup_ge_None_2 by lia. done.
Qed.

Lemma rectangular_lengths df :
  rectangular df = true →
  Forall (fun t => length t = nrows df)
    (map (fun col => column_texts (snd col)) (columns df)).
Proof.
  unfold rectangular. intros Hrect. apply Forall_fmap, Forall_forall.
  intros col Hcol. cbn.
  rewrite forallb_forall in Hrect. apply list_elem_of_In in Hcol.
  specialize (Hrect col Hcol). apply Nat.eqb_eq in Hrect.
  by rewrite <- column_texts_cells, length_map.
Qed.

(** The rows of a rectangular table, as text, are the transpose of its
    columns' texts. *)
Lemma rows_texts df :
  rectangular df = true → map (map str_scalar) (rows df) = table_texts df.
Proof.
  intros Hrect. unfold rows, table_texts. rewrite map_map.
  rewrite (map_ext _ _ (row_texts df)).
  rewrite (lookup_rows_transpose _ _ (rectangular_lengths df Hrect)).
  unfold nrows. by destruct (columns df) as [|[name c] cols].
Qed.

Lemma rows_nonempty df :
  Forall (fun r => r ≠ []) (map (map str_scalar) (rows df)).
Proof.
  apply Forall_forall. intros r Hr.
  apply list_elem_of_fmap in Hr as (r0 & -> & Hr0).
  unfold rows in Hr0. apply list_elem_of_fmap in Hr0 as (i & -> & Hi).
  apply elem_of_seq in Hi as [_ Hi]. unfold nrows, row in *.
  destruct (columns df) as [|[name c] cols]; [simpl in Hi; lia|].
  simpl in Hi. apply lookup_lt_is_Some_2 in Hi as [v Hv].
  cbn [omap list_omap snd]. by rewrite Hv.
Qed.

(** Every text of a row is a text of the table. *)
Lemma row_texts_in_table df (i : nat) (x : string) :
  x ∈ map str_scalar (row df i) → x ∈ all_texts df.
Proof.
  rewrite row_texts. intros Hx.
  apply list_elem_of_omap in Hx as (t & Ht & Hx).
  apply list_elem_of_fmap in Ht as (col & -> & Hcol).
  unfold all_texts. apply elem_of_app. right.
  apply list_elem_of_In, in_flat_map. exists col.
  rewrite <- !list_elem_of_In. split; [done|].
  by apply list_elem_of_lookup_2 in Hx.
Qed.

Lemma no_carriage_return_lines df :
  columns df ≠ [] →
  no_carriage_return df = true →
  Forall (fun fields =>
            fields ≠ [] ∧ Forall (fun f => has_carriage_return f = false) fields)
    (column_names df :: map (map str_scalar) (rows df)).
Proof.
  intros Hcols Hcr. unfold no_carriage_return in Hcr.
  rewrite forallb_forall in Hcr.
  assert (Hall : ∀ x, x ∈ all_texts df → has_carriage_return x = false).
  { intros x Hx. apply list_elem_of_In in Hx.
    by apply negb_true_iff, Hcr. }
  constructor.
  - split.
    + unfold column_names. by destruct (columns df).
    + apply Forall_forall. intros x Hx. apply Hall.
      unfold all_texts. apply elem_of_app. by left.
  - apply Forall_forall. intros fields Hfields. split.
    + pose proof (rows_nonempty df) as Hne. rewrite Forall_forall in Hne.
      by apply Hne.
    + apply list_elem_of_fmap in Hfields as (r & -> & Hr).
      unfold rows in Hr. apply list_elem_of_fmap in Hr as (i & -> & _).
      apply Forall_forall. intros x Hx. by apply Hall, (row_texts_in_table df i).
Qed.

(** The export of a table without carriage returns reads back as its column
    names and the texts of its rows. *)
Lemma read_csv_to_csv df :
  columns df ≠ [] →
  no_carriage_return df = true →
  read_csv (to_csv df) = Some (stringified df).
Proof.
  intros Hcols Hcr. unfold read_csv, to_csv.
  rewrite read_csv_lines; [done|]. by apply no_carriage_return_lines.
Qed.

End TableTexts.

(** X15: a table that [pd.DataFrame] accepts (at least one column, equally
    long columns, distinct names) with text and int64 columns only and no
    carriage return in any name or cell reads back from its CSV text as its
    column names and, row by row, the texts of its cells, also when cells
    hold commas, quotes or line feeds or are empty. *)
Theorem csv_export_reads_back (df : DataFrame) :
  columns df ≠ [] →
  rectangular df = true →
  distinct_names df = true →
  text_and_int64_columns df = true →
  no_carriage_return df = true →
  read_csv (to_csv df) = Some (column_names df, table_texts df).
Proof.
  intros Hcols Hrect _ _ Hcr.
  rewrite read_csv_to_csv by done. unfold stringified.
  by rewrite rows_texts.
Qed.

Lemma csv_export_reads_back_witness :
  read_csv
    (to_csv (mkDataFrame
               [ ("a,b", StrColumn ["x" ++ dq ++ "y"; ""]);
                 ("c", StrColumn [nl; "z"]);
                 ("n", IntColumn [7; -3]) ]))
  = Some (["a,b"; "c"; "n"],
          [ ["x" ++ dq ++ "y"; nl; "7"]; [""; "z"; "-3"] ]).
Proof.
  apply (csv_export_reads_back
           (mkDataFrame
              [ ("a,b", StrColumn ["x" ++ dq ++ "y"; ""]);
                ("c", StrColumn [nl; "z"]);
                ("n", IntColumn [7; -3]) ])).
  - discriminate.
  - reflexivity.
  - vm_compute. reflexivity.
  - reflexivity.
  - reflexivity.
Defined.

(** * The whole script *)

Section WholeScript.

Lemma static_registry_renders named_color :
  ∃ elems, visualization_page named_color graph_model = Ok elems.
Proof.
  apply visualization_page_renders; [| |simpl; lia].
  - apply (bool_decide_unpack _). vm_compute. exact I.
  - unfold colors_accepted, graph_model; cbn [nodes].
    repeat (apply Forall_cons; split; [reflexivity|]). apply Forall_nil_2.
Qed.

Lemma offered_option_renders (query_option : string) :
  query_option ∈ query_options queries →
  ∃ elems, queries_page query_option = Ok elems.
Proof.
  intros Hin. unfold query_options in Hin.
  apply elem_of_lookup_imap in Hin as (i & q & -> & Hq).
  eexists. by apply queries_page_option.
Qed.

End WholeScript.

(** X16: with the select box on one of its options, a run of the script
    raises nothing for any of the six options of the radio group, and emits
    the frame, then the section that the option names (Overview, Nodes,
    Edges, Queries, Visualization, Implementation, in the order of the radio
    group), then the footer. *)
Theorem offered_selection_renders (named_color : string → bool)
    (query_option : string) :
  query_option ∈ query_options queries →
  ∃ qelems velems,
    queries_page query_option = Ok qelems
    ∧ visualization_page named_color graph_model = Ok velems
    ∧ map (fun page => app named_color page query_option) pages
      = [ Ok (app_top ++ map Plain overview_page ++ app_footer)%list;
          Ok (app_top ++ map Plain (nodes_page graph_model) ++ app_footer)%list;
          Ok (app_top ++ edges_page graph_model ++ app_footer)%list;
          Ok (app_top ++ map Plain qelems ++ app_footer)%list;
          Ok (app_top ++ map Plain velems ++ app_footer)%list;
          Ok (app_top ++ implementation_page ++ app_footer)%list ].
Proof.
  intros Hopt.
  destruct (offered_option_renders query_option Hopt) as (qelems & Hq).
  destruct (static_registry_renders named_color) as (velems & Hv).
  exists qelems, velems. split; [exact Hq|]. split; [exact Hv|].
  unfold pages. cbn [map]. unfold app, section.
  repeat match goal with
         | |- context [String.eqb ?a ?b] =>
             let v := eval vm_compute in (String.eqb a b) in
             change (String.eqb a b) with v
         end.
  cbv iota. rewrite Hq, Hv. reflexivity.
Qed.

Lemma offered_selection_renders_witness :
  ∃ qelems velems,
    queries_page "4. Find highly rated restaurants" = Ok qelems
    ∧ visualization_page (fun _ => false) graph_model = Ok velems
    ∧ map (fun page => app (fun _ => false) page
                         "4. Find highly rated restaurants") pages
      = [ Ok (app_top ++ map Plain overview_page ++ app_footer)%list;
          Ok (app_top ++ map Plain (nodes_page graph_model) ++ app_footer)%list;
          Ok (app_top ++ edges_page graph_model ++ app_footer)%list;
          Ok (app_top ++ map Plain qelems ++ app_footer)%list;
          Ok (app_top ++ map Plain velems ++ app_footer)%list;
          Ok (app_top ++ implementation_page ++ app_footer)%list ].
Proof.
  apply (offered_selection_renders (fun _ => false)
           "4. Find highly rated restaurants").
  apply (bool_decide_unpack _). vm_compute. exact I.
Defined.

(** X17: a value of [page] that is none of the six options matches no branch
    of the chain: the run emits the frame and the footer and no section, and
    raises nothing. *)
Theorem unknown_page_renders_no_section (named_color : string → bool)
    (page query_option : string) :
  page ∉ pages →
  app named_color page query_option = Ok (app_top ++ app_footer)%list.
Proof.
  intros Hpage. unfold pages in Hpage.
  repeat (apply not_elem_of_cons in Hpage as [?%String.eqb_neq Hpage]).
  unfold app, section.
  repeat match goal with H : String.eqb _ _ = false |- _ => rewrite H; clear H end.
  reflexivity.
Qed.

Lemma unknown_page_renders_no_section_witness :
  app (fun _ => false) "Settings" "1. Find all orders by a customer"
  = Ok (app_top ++ app_footer)%list.
Proof.
  apply (unknown_page_renders_no_section (fun _ => false) "Settings"
           "1. Find all orders by a customer").
  apply (bool_decide_unpack _). vm_compute. exact I.
Defined.

(** X18: the only section that can stop a run is the Queries section, and
    only with ValueError or IndexError; every other value of [page], offered
    or not, runs to the footer whatever the select box holds. *)
Theorem only_queries_section_fails (named_color : string → bool)
    (page query_option : string) (e : exn) :
  app named_color page query_option = Raise e →
  page = "🔍 Queries" ∧ (exn_class e = "ValueError" ∨ e = IndexError).
Proof.
  destruct (static_registry_renders named_color) as (velems & Hv).
  unfold app, section. rewrite Hv.
  repeat match goal with
         | |- context [String.eqb page ?l] =>
             destruct (String.eqb_spec page l) as [->|?];
             [try (intros H;
                   cbv beta iota delta [mbind result_bind mret result_ret] in H;
                   discriminate H)|]
         end.
  - destruct (queries_page query_option) as [elems|e'] eqn:Hq;
      intros [= <-].
    split; [reflexivity|]. apply (queries_page_failure query_option), Hq.
  - intros H. cbv beta iota delta [mbind result_bind mret result_ret] in H.
    discriminate H.
Qed.

Lemma only_queries_section_fails_witness :
  "🔍 Queries" = "🔍 Queries"
  ∧ (exn_class IndexError = "ValueError" ∨ IndexError = IndexError).
Proof.
  apply (only_queries_section_fails (fun _ => false) "🔍 Queries" "9. none").
  vm_compute. reflexivity.
Defined.

(** * Duplicate names and plain tables *)

Section Overwrites.

Lemma colors_after_lookup_other (ns : list NodeType)
    (colors : gmap string string) (k : string) :
  k ∉ map node_type ns → colors_after ns colors !! k = colors !! k.
Proof.
  revert colors. induction ns as [|n ns IH]; intros colors Hk; [done|].
  simpl in Hk. apply not_elem_of_cons in Hk as [Hne Hk].
  change (colors_after (n :: ns) colors)
    with (colors_after ns (<[node_type n := node_color n]> colors)).
  rewrite IH by done. by rewrite lookup_insert_ne.
Qed.

Lemma colors_after_app (ns1 ns2 : list NodeType) (colors : gmap string string) :
  colors_after (ns1 ++ ns2) colors = colors_after ns2 (colors_after ns1 colors).
Proof. unfold colors_after. by rewrite foldl_app. Qed.

End Overwrites.

(** X19: the colour table is keyed by the node-type name, so of several node
    types with the same name the last one in the list gives the colour the
    vertex is drawn with. *)
Theorem last_node_type_of_a_name_gives_the_colour (model : GraphModel)
    (ns1 ns2 : list NodeType) (n : NodeType) :
  nodes model = (ns1 ++ n :: ns2)%list →
  (∀ n', n' ∈ ns2 → node_type n' ≠ node_type n) →
  node_colors_of model !! node_type n = Some (node_color n).
Proof.
  intros Hnodes Hlast. unfold node_colors_of. rewrite build_graph_split.
  cbn [fst snd]. rewrite Hnodes, colors_after_app.
  change (colors_after (n :: ns2) ?c)
    with (colors_after ns2 (<[node_type n := node_color n]> c)).
  rewrite colors_after_lookup_other; [apply lookup_insert_eq|].
  intros Hin. apply list_elem_of_fmap in Hin as (n' & Heq & Hn').
  by apply (Hlast n' Hn').
Qed.

Lemma last_node_type_of_a_name_gives_the_colour_witness :
  node_colors_of
    (mkModel [ mkNode "Dish" [] "#fbbf24" "d"; mkNode "Dish" [] "#000000" "d" ] [])
    !! node_type (mkNode "Dish" [] "#000000" "d")
  = Some (node_color (mkNode "Dish" [] "#000000" "d")).
Proof.
  apply (last_node_type_of_a_name_gives_the_colour
           (mkModel [ mkNode "Dish" [] "#fbbf24" "d";
                      mkNode "Dish" [] "#000000" "d" ] [])
           [ mkNode "Dish" [] "#fbbf24" "d" ] []).
  - reflexivity.
  - intros n' Hn'. by apply elem_of_nil in Hn'.
Defined.

Section PlainTables.

Implicit Types (f rest : string) (fields : list string) (df : DataFrame).

Lemma plain_no_line_feed f : needs_quote f = false → has_line_feed f = false.
Proof.
  induction f as [|c f IH]; [done|]. simpl. intros Hq.
  apply orb_false_elim in Hq as [Hc Hf].
  apply needs_quote_char_false in Hc as (_ & _ & Hlf).
  rewrite IH by done. rewrite orb_false_r.
  destruct (Ascii.eqb_spec c (ascii_of_nat 10)) as [->|]; [|done].
  vm_compute in Hlf. discriminate Hlf.
Qed.

Lemma has_line_feed_append (a b : string) :
  has_line_feed (a ++ b) = has_line_feed a || has_line_feed b.
Proof.
  induction a as [|c a IH]; [done|].
  rewrite append_String. simpl. by rewrite IH, orb_assoc.
Qed.

Lemma has_line_feed_join fields :
  Forall (fun f => has_line_feed f = false) fields →
  has_line_feed (join "," fields) = false.
Proof.
  induction 1 as [|f fs Hf Hfs IH]; [done|].
  destruct fs as [|f2 fs]; [done|].
  change (join "," (f :: f2 :: fs)) with (f ++ "," ++ join "," (f2 :: fs)).
  by rewrite !has_line_feed_append, Hf, IH.
Qed.

Lemma split_line (s rest : string) :
  has_line_feed s = false →
  split (ascii_of_nat 10) (s ++ nl ++ rest)
  = s :: split (ascii_of_nat 10) rest.
Proof.
  induction s as [|c s IH]; [done|]. intros Hlf. cbn [has_line_feed] in Hlf.
  apply orb_false_elim in Hlf as [Hc Hs].
  rewrite append_String. cbn [split]. by rewrite Hc, IH.
Qed.

Lemma map_quote_field_plain fields :
  Forall (fun f => needs_quote f = false) fields →
  map quote_field fields = fields.
Proof.
  induction 1 as [|f fs Hf Hfs IH]; [done|].
  simpl. rewrite IH. unfold quote_field. by rewrite Hf.
Qed.

Lemma csv_line_plain fields :
  plain_line fields → csv_line fields = join "," fields ++ nl.
Proof.
  intros [Hplain Hblank]. unfold csv_line.
  rewrite map_quote_field_plain by done.
  destruct fields as [|[|c f] [|f2 fs]]; done.
Qed.

Lemma text_lines_plain (ls : list (list string)) :
  Forall plain_line ls →
  text_lines (foldr String.append "" (map csv_line ls))
  = (map (join ",") ls ++ [""])%list.
Proof.
  unfold text_lines. induction 1 as [|fields ls Hline Hls IH]; [done|].
  cbn [map foldr]. rewrite csv_line_plain by done.
  rewrite append_assoc, split_line, IH; [done|].
  apply has_line_feed_join. destruct Hline as [Hplain _].
  eapply Forall_impl; [exact Hplain|]. intros f. apply plain_no_line_feed.
Qed.

(** In a rectangular table every row has one cell per column. *)
Lemma row_length df (i : nat) :
  rectangular df = true → (i < nrows df)%nat →
  length (row df i) = length (columns df).
Proof.
  unfold rectangular, row. intros Hrect Hi.
  rewrite forallb_forall in Hrect.
  assert (Hall : Forall (fun col =>
                   length (column_cells (snd col)) = nrows df) (columns df)).
  { apply Forall_forall. intros col Hcol. apply list_elem_of_In in Hcol.
    by apply Nat.eqb_eq, Hrect. }
  clear Hrect. revert Hi Hall. generalize (nrows df). intros n Hi Hall.
  induction (columns df) as [|col cols IH]; [done|].
  apply Forall_cons in Hall as [Hcol Hcols].
  cbn [omap list_omap].
  destruct (lookup_lt_is_Some_2 (column_cells (snd col)) i) as [v Hv]; [lia|].
  rewrite Hv. cbn [length]. by rewrite IH.
Qed.

Lemma two_fields_not_blank fields :
  (2 ≤ length fields)%nat → fields ≠ [""].
Proof. intros Hlen ->. simpl in Hlen. lia. Qed.

Lemma plain_lines df :
  (2 ≤ length (columns df))%nat →
  rectangular df = true →
  no_quoting_needed df = true →
  Forall plain_line (column_names df :: map (map str_scalar) (rows df)).
Proof.
  intros Hlen Hrect Hplain. unfold no_quoting_needed in Hplain.
  rewrite forallb_forall in Hplain.
  assert (Htext : ∀ x, x ∈ all_texts df → needs_quote x = false).
  { intros x Hx. apply list_elem_of_In, Hplain in Hx.
    by apply negb_true_iff in Hx. }
  apply Forall_cons. split.
  - split.
    + apply Forall_forall. intros x Hx. apply Htext.
      unfold all_texts. apply elem_of_app. by left.
    + apply two_fields_not_blank. unfold column_names. by rewrite length_map.
  - apply Forall_forall. intros r Hr.
    apply list_elem_of_fmap in Hr as (r0 & -> & Hr0).
    unfold rows in Hr0. apply list_elem_of_fmap in Hr0 as (i & -> & Hi).
    apply elem_of_seq in Hi as [_ Hi]. split.
    + apply Forall_forall. intros x Hx.
      by apply Htext, (row_texts_in_table df i).
    + apply two_fields_not_blank.
      rewrite length_map, row_length by (done || lia). done.
Qed.

End PlainTables.

(** X20: take a table of two or more columns, with distinct column names,
    columns of equal length, only text and int64 columns, and no comma,
    double quote, line feed or carriage return in any column name or cell
    text.  It is exported without any quoting, one line per row: the lines
    of the text are the column names joined by commas, then each row's cell
    texts joined by commas, and the text ends with a line feed. *)
Theorem plain_table_exports_one_line_per_row (df : DataFrame) :
  (2 ≤ length (columns df))%nat →
  rectangular df = true →
  distinct_names df = true →
  text_and_int64_columns df = true →
  no_quoting_needed df = true →
  no_carriage_return df = true →
  text_lines (to_csv df)
  = (map (join ",") (column_names df :: table_texts df) ++ [""])%list.
Proof.
  intros Hlen Hrect _ _ Hplain _. unfold to_csv.
  rewrite text_lines_plain by (by apply plain_lines).
  by rewrite rows_texts.
Qed.

Lemma plain_table_exports_one_line_per_row_witness :
  text_lines
    (to_csv (mkDataFrame [ ("city", StrColumn ["Pune"; ""]);
                            ("orders", IntColumn [12; -1]) ]))
  = ["city,orders"; "Pune,12"; ",-1"; ""].
Proof.
  apply (plain_table_exports_one_line_per_row
           (mkDataFrame [ ("city", StrColumn ["Pune"; ""]);
                          ("orders", IntColumn [12; -1]) ]));
    [simpl; lia|vm_compute; reflexivity..].
Defined.
